(** * The PIN screen: a shallow embedding of the PinScreen component

    The component keeps five pieces of React state (the mode, the digit
    buffer, the configure phase, the retry counter and the visibility of the
    lockout prompt) and talks to three stores and services: the credential
    provider, the key-value storage holding the persisted retry counter, and
    the fingerprint scanner.  Every handler and effect of the component is
    embedded as a state-passing function over the component state and the
    world around it.

    Conventions of the embedding.

    - A handler or effect is a closure created by a render: it READS the
      component state of that render (the snapshot [r]) and WRITES through
      the setters.  Handlers therefore take the snapshot as an argument and
      run in the monad [M] over the live system; [run] runs a handler from
      the latest render.
    - [run] makes one invocation of a handler one transition: the setter
      calls it makes are committed together (batched updates) and the
      promises it awaits resolve without another handler running in between.
      What changes when every setter call is committed on its own is
      modelled apart, for the evaluating effect ([evaluateUnbatched]).
    - Calls that leave the component (the result callback, alerts, the
      console, the scanner, the wipe of the credential store, the restart,
      the navigation) are recorded, in order, in the [events] of the
      world. *)

From Stdlib Require Import String Ascii List Bool Arith ZArith Lia.
From Stdlib Require Import Decimal DecimalNat DecimalString.
Import ListNotations.
Local Open Scope string_scope.
Local Open Scope nat_scope.

(** ** The fragment of JavaScript the component relies on *)

Module JS.

(** The numbers the retry counter ranges over: the naturals, and NaN for
    what [Number] makes of a string that is no number. *)
Inductive Number : Type :=
| Num (n : nat)
| NaN.

(** [String(x)] on such a number. *)
Definition ToString (x : Number) : string :=
  match x with
  | Num n => NilZero.string_of_uint (Nat.to_uint n)
  | NaN => "NaN"
  end.

(** [Number(s)], on strings of decimal digits (the empty string is 0).
    Every other string is read as NaN: this is exact for whatever
    [ToString] writes, and leaves signed, fractional, exponent and padded
    literals out of the model. *)
Definition ToNumber (s : string) : Number :=
  match NilEmpty.uint_of_string s with
  | Some d => Num (Nat.of_uint d)
  | None => NaN
  end.

(** [x + k], [x >= k] and [x > k] for a natural constant [k]. *)
Definition add (x : Number) (k : nat) : Number :=
  match x with
  | Num n => Num (n + k)
  | NaN => NaN
  end.

Definition ge (x : Number) (k : nat) : bool :=
  match x with
  | Num n => k <=? n
  | NaN => false
  end.

Definition gt (x : Number) (k : nat) : bool :=
  match x with
  | Num n => k <? n
  | NaN => false
  end.

(** [!s] on a string: only the empty string is falsy. *)
Definition not (s : string) : bool := String.eqb s EmptyString.

(** [a || b] on a possibly null string. *)
Definition or_else (a : option string) (b : string) : string :=
  match a with
  | Some s => if not s then b else s
  | None => b
  end.

(** [s.slice(start, end)]: negative indices count from the end, both are
    clamped to the string, and an empty range gives the empty string. *)
Definition slice (s : string) (start end_ : Z) : string :=
  let len := Z.of_nat (String.length s) in
  let from := if (start <? 0)%Z then Z.max (len + start) 0 else Z.min start len in
  let to := if (end_ <? 0)%Z then Z.max (len + end_) 0 else Z.min end_ len in
  substring (Z.to_nat from) (Z.to_nat (Z.max (to - from) 0)) s.

End JS.

(** ** Data model *)

Definition PIN_COUNT : nat := 4.
Definition PIN_TRY_MAX : nat := 10.

(** The values of the digit buttons, in the order of the keypad. *)
Definition digits : list string :=
  ["1"; "2"; "3"; "4"; "5"; "6"; "7"; "8"; "9"; "0"].

(** [PinType = "set" | "auth" | "reset"]. *)
Inductive PinType : Type := PinSet | PinAuth | PinReset.

(** The configure phase, ["input" | "confirm" | "done"]. *)
Inductive Phase : Type := PhInput | PhConfirm | PhDone.

Definition PinType_eqb (a b : PinType) : bool :=
  match a, b with
  | PinSet, PinSet | PinAuth, PinAuth | PinReset, PinReset => true
  | _, _ => false
  end.

(** The React state of the component. *)
Record State : Type := mkState {
  pinType : PinType;
  inputPin : string;
  pinConfigurePhase : Phase;
  pinTryCount : JS.Number;
  visibleResetModal : bool
}.

(** What the component receives: the route parameters ([type], and whether a
    [result] and a [cancel] callback were passed) and the biometric
    capability reported by the Turnkey context ([null] when there is none). *)
Record Params : Type := mkParams {
  type : PinType;
  result : bool;
  cancel : bool;
  biometricType : option string
}.

Inductive AlertType : Type := success | error.

(** Calls that leave the component. *)
Inductive Event : Type :=
| Result (matched : bool)
| Alert (alertType : AlertType) (message : string)
| ConsoleLog (err : string)
| Authenticate (description : string)
| RemoveKeys
| Restart
| Pop
| Cancel.

(** Modelled from the spec: the credential provider behind
    useCredentialProvider is not among the sources.  Following its contract
    in the interface table, it holds the active PIN and the PIN staged during
    configuration, each empty when unset; getPin and getNewPin read them,
    savePin and saveNewPin write them, resetNewPin empties the staged PIN and
    removeKeys wipes both. *)
Record Credentials : Type := mkCredentials {
  pin : string;
  newPin : string
}.

(** The world around the component: the credential store, the cell of the
    key-value storage under [LocalStorageKey.PIN_TRY_COUNT] ([None] when the
    key is absent) and the calls made so far, oldest first. *)
Record World : Type := mkWorld {
  credentials : Credentials;
  PIN_TRY_COUNT : option string;
  events : list Event
}.

Record Sys : Type := mkSys {
  ui : State;
  world : World
}.

(** ** The monad of handlers *)

Definition M (A : Type) : Type := Sys -> A * Sys.

Definition ret {A} (a : A) : M A := fun s => (a, s).

Definition bind {A B} (m : M A) (k : A -> M B) : M B :=
  fun s => let (a, s') := m s in k a s'.

Declare Scope pin_scope.
Delimit Scope pin_scope with pin.
Notation "x <- m ;; k" := (bind m (fun x => k))
  (at level 61, m at next level, right associativity) : pin_scope.
Notation "m ;; k" := (bind m (fun _ => k))
  (at level 61, right associativity) : pin_scope.
Local Open Scope pin_scope.

(** [c && f()]: the call is made only when the guard holds. *)
Definition when (c : bool) (m : M unit) : M unit :=
  if c then m else ret tt.

Definition modify_ui (f : State -> State) : M unit :=
  fun s => (tt, mkSys (f (ui s)) (world s)).

Definition modify_world (f : World -> World) : M unit :=
  fun s => (tt, mkSys (ui s) (f (world s))).

(** The state setters returned by [useState]. *)
Definition setPinType (v : PinType) : M unit :=
  modify_ui (fun u =>
    mkState v (inputPin u) (pinConfigurePhase u) (pinTryCount u) (visibleResetModal u)).

Definition setInputPin (v : string) : M unit :=
  modify_ui (fun u =>
    mkState (pinType u) v (pinConfigurePhase u) (pinTryCount u) (visibleResetModal u)).

Definition setPinConfigurePhase (v : Phase) : M unit :=
  modify_ui (fun u =>
    mkState (pinType u) (inputPin u) v (pinTryCount u) (visibleResetModal u)).

Definition setPinTryCount (v : JS.Number) : M unit :=
  modify_ui (fun u =>
    mkState (pinType u) (inputPin u) (pinConfigurePhase u) v (visibleResetModal u)).

Definition setVisibleResetModal (v : bool) : M unit :=
  modify_ui (fun u =>
    mkState (pinType u) (inputPin u) (pinConfigurePhase u) (pinTryCount u) v).

(** Recording a call that leaves the component. *)
Definition emit (e : Event) : M unit :=
  modify_world (fun w =>
    mkWorld (credentials w) (PIN_TRY_COUNT w) (events w ++ [e])).

(** The key-value storage, at the retry-count key. *)
Module AsyncStorage.

Definition getItem : M (option string) :=
  fun s => (PIN_TRY_COUNT (world s), s).

Definition setItem (v : string) : M unit :=
  modify_world (fun w => mkWorld (credentials w) (Some v) (events w)).

End AsyncStorage.

(** Modelled from the spec: the operations of the credential provider,
    after the interface table.  First, the update they share. *)
Definition modify_credentials (f : Credentials -> Credentials) : M unit :=
  modify_world (fun w => mkWorld (f (credentials w)) (PIN_TRY_COUNT w) (events w)).

(** Modelled from the spec: getPin returns the active PIN, empty if unset. *)
Definition getPin : M string := fun s => (pin (credentials (world s)), s).

(** Modelled from the spec: getNewPin returns the PIN staged during the
    configure flow. *)
Definition getNewPin : M string := fun s => (newPin (credentials (world s)), s).

(** Modelled from the spec: savePin persists the active PIN. *)
Definition savePin (p : string) : M unit :=
  modify_credentials (fun c => mkCredentials p (newPin c)).

(** Modelled from the spec: saveNewPin stages the pending PIN. *)
Definition saveNewPin (p : string) : M unit :=
  modify_credentials (fun c => mkCredentials (pin c) p).

(** Modelled from the spec: resetNewPin clears the pending PIN. *)
Definition resetNewPin : M unit :=
  modify_credentials (fun c => mkCredentials (pin c) EmptyString).

(** Modelled from the spec: removeKeys wipes all stored credentials.  The
    call is recorded, so that its order against the restart shows. *)
Definition removeKeys : M unit :=
  emit RemoveKeys ;;
  modify_credentials (fun _ => mkCredentials EmptyString EmptyString).

(** The scanner either resolves or rejects with an error. *)
Inductive ScanOutcome : Type :=
| Resolved
| Rejected (err : string).

(** ** The component *)

Section PinScreen.

Variable params : Params.

(** [resultCallback && resultCallback(matched)]. *)
Definition resultCallback (matched : bool) : M unit :=
  when (result params) (emit (Result matched)).

Definition handleInput (r : State) (value : string) : M unit :=
  if PIN_COUNT <=? String.length (inputPin r) then ret tt
  else
    let n := inputPin r ++ value in
    setInputPin n.

Definition handleDelete (r : State) : M unit :=
  if (String.length (inputPin r) <=? 0) && (PIN_COUNT <=? String.length (inputPin r))
  then ret tt
  else
    let n := JS.slice (inputPin r) 0 (-1) in
    setInputPin n.

Definition clearInputPin : M unit := setInputPin EmptyString.

Definition initPinTryCount : M unit :=
  item <- AsyncStorage.getItem ;;
  let count := JS.or_else item "0" in
  setPinTryCount (JS.ToNumber count).

Definition increasePinTryCount (r : State) : M unit :=
  let count := JS.add (pinTryCount r) 1 in
  setPinTryCount count ;;
  AsyncStorage.setItem (JS.ToString count).

Definition resetPinTryCount : M unit :=
  setVisibleResetModal false ;;
  setPinTryCount (JS.Num 0) ;;
  AsyncStorage.setItem (JS.ToString (JS.Num 0)).

(** The test shared by the focus effect and the retry-count effect,
    [type === "auth" && pinTryCount >= PIN_TRY_MAX && setVisibleResetModal(true)]. *)
Definition lockoutCheck (r : State) : M unit :=
  when (PinType_eqb (type params) PinAuth && JS.ge (pinTryCount r) PIN_TRY_MAX)
       (setVisibleResetModal true).

(** The focus effect, and the cleanup it returns (run when the screen
    loses focus, and before the effect runs again). *)
Definition focusEffect (r : State) : M unit :=
  initPinTryCount ;;
  lockoutCheck r.

Definition focusCleanup : M unit := setVisibleResetModal false.

(** The effect on [resetNewPin]. *)
Definition mountEffect : M unit :=
  clearInputPin ;;
  resetNewPin ;;
  initPinTryCount.

(** The effect on [pinTryCount, type]. *)
Definition tryCountEffect (r : State) : M unit := lockoutCheck r.

(** The effect on [type]. *)
Definition pinTypeEffect : M unit := setPinType (type params).

(** The asynchronous effect on [pinType]: the biometric shortcut.  The
    outcome of the scan is the scanner's. *)
Definition biometricEffect (o : ScanOutcome) (r : State) : M unit :=
  match pinType r, biometricType params with
  | PinAuth, Some b =>
      emit (Authenticate ("Sign in with " ++ b)) ;;
      match o with
      | Resolved => resultCallback true
      | Rejected err => emit (ConsoleLog err)
      end
  | _, _ => ret tt
  end.

(** The effect evaluating the buffer. *)
Definition handlePin (r : State) : M unit :=
  match pinType r with
  | PinAuth =>
      if String.length (inputPin r) =? 4 then
        v <- getPin ;;
        let match_ := JS.not v || String.eqb (inputPin r) v in
        (if match_ then resetPinTryCount else increasePinTryCount r) ;;
        clearInputPin ;;
        resultCallback match_
      else ret tt
  | PinReset | PinSet =>
      if String.length (inputPin r) =? 4 then
        newPin <- getNewPin ;;
        (if String.eqb newPin EmptyString then
           saveNewPin (inputPin r) ;;
           setPinConfigurePhase PhConfirm
         else
           (if String.eqb newPin (inputPin r) then
              savePin (inputPin r) ;;
              emit (Alert success "PIN code has been set up successfully.") ;;
              when (negb (PinType_eqb (pinType r) PinReset))
                   (setPinConfigurePhase PhDone) ;;
              resetPinTryCount ;;
              resultCallback true
            else
              emit (Alert error "Failed to set up PIN code.") ;;
              setPinConfigurePhase PhInput) ;;
           resetNewPin) ;;
        clearInputPin
      else ret tt
  end.

(** [removeKeys().then(() => RNRestart.restart())]. *)
Definition onResetPin : M unit :=
  removeKeys ;;
  emit Restart.

(** The negative action of the lockout prompt. *)
Definition onLater : M unit := emit Pop.

(** The close button, [props.onPress && props.onPress()] with [cancel]. *)
Definition onClose : M unit := when (cancel params) (emit Cancel).

(** *** What a render shows *)

Record View : Type := mkView {
  title : string;
  subTitle : option string;
  tryCountText : string;
  lockoutWarning : string;
  dots : list bool;
  keypad : list string;
  forgot : bool;
  modalVisible : bool
}.

Definition WARNING : string :=
  "You have to reset your PIN code" ++ String "010" "if you enter the wrong PIN code again.".

Definition render (r : State) : View :=
  let isAuth := PinType_eqb (pinType r) PinAuth in
  {| title :=
       if isAuth then "Enter your PIN code"
       else match pinConfigurePhase r with
            | PhInput => "Set up your PIN code"
            | PhConfirm => "Confirm your PIN code"
            | PhDone => "Confirm your PIN code"
            end;
     subTitle :=
       if isAuth then None
       else Some match pinConfigurePhase r with
                 | PhInput => "This action requires a PIN code setting."
                 | PhConfirm => EmptyString
                 | PhDone => EmptyString
                 end;
     tryCountText :=
       if isAuth && JS.gt (pinTryCount r) 0
       then "Wrong PIN code (" ++ JS.ToString (pinTryCount r) ++ "/"
              ++ JS.ToString (JS.Num PIN_TRY_MAX) ++ ")"
       else " ";
     lockoutWarning :=
       if isAuth && JS.ge (pinTryCount r) (PIN_TRY_MAX - 1)
       then WARNING
       else String "010" EmptyString;
     dots := map (fun i => i <? String.length (inputPin r)) (seq 0 PIN_COUNT);
     keypad := digits;
     forgot := isAuth;
     modalVisible := visibleResetModal r |}.

(** *** Running the component *)

(** A handler run from the latest render. *)
Definition run (h : State -> M unit) (s : Sys) : Sys := snd (h (ui s) s).

(** The state of a freshly mounted screen. *)
Definition initialState : State :=
  mkState (type params) EmptyString PhInput (JS.Num 0) false.

Definition mount (w : World) : Sys := mkSys initialState w.

(** What can happen to a mounted screen: the user's presses and the
    effects React runs. *)
Inductive Action : Type :=
| PressDigit (value : string)
| PressDelete
| PressForgot
| PressClose
| PressReset
| PressLater
| Focus
| Blur
| MountEffect
| TryCountEffect
| PinTypeEffect
| BiometricEffect (o : ScanOutcome)
| HandlePinEffect.

(** A press needs its control on screen. *)
Definition enabled (a : Action) (s : Sys) : bool :=
  match a with
  | PressDigit value => existsb (String.eqb value) (keypad (render (ui s)))
  | PressForgot => forgot (render (ui s))
  | PressReset | PressLater => modalVisible (render (ui s))
  | _ => true
  end.

Definition perform (a : Action) : Sys -> Sys :=
  match a with
  | PressDigit value => run (fun r => handleInput r value)
  | PressDelete => run handleDelete
  | PressForgot => run (fun _ => onResetPin)
  | PressClose => run (fun _ => onClose)
  | PressReset => run (fun _ => onResetPin)
  | PressLater => run (fun _ => onLater)
  | Focus => run focusEffect
  | Blur => run (fun _ => focusCleanup)
  | MountEffect => run (fun _ => mountEffect)
  | TryCountEffect => run tryCountEffect
  | PinTypeEffect => run (fun _ => pinTypeEffect)
  | BiometricEffect o => run (biometricEffect o)
  | HandlePinEffect => run handlePin
  end.

Inductive reachable : Sys -> Prop :=
| reachable_mount (w : World) : reachable (mount w)
| reachable_step (s : Sys) (a : Action) :
    reachable s -> enabled a s = true -> reachable (perform a s).

(** The lockout prompt deferred: the negative action pops the screen, and
    the screen losing focus runs the cleanup of the focus effect. *)
Definition deferLockout (s : Sys) : Sys :=
  perform Blur (perform PressLater s).

(** A run of digit presses, first to last. *)
Definition pressAll (values : list string) (s : Sys) : Sys :=
  fold_left (fun s value => perform (PressDigit value) s) values s.

End PinScreen.

(** ** The keypad buttons *)

(** The three shapes of props a [PinButton] takes; the component tells them
    apart by the presence of [value], [delete] and [disabled], whatever the
    boolean carried by the last two. *)
Inductive PinButtonProps : Type :=
| ValueProps (value : string)
| DeleteProps (delete : bool)
| DisabledProps (disabled : bool).

Section PinButton.

(** The pressed colour of the theme, [colors.black._90005]. *)
Variable black_90005 : string.

(** [onPressIn]: the button takes the pressed colour (the value returned is
    its new [backgroundColor]) and calls the handler its props carry. *)
Definition onPressIn (props : PinButtonProps) (r : State) : M (option string) :=
  (match props with
   | ValueProps value => handleInput r value
   | _ => ret tt
   end) ;;
  (match props with
   | DeleteProps _ => handleDelete r
   | _ => ret tt
   end) ;;
  ret (Some black_90005).

(** A press on the button: the touchable is disabled when the props carry
    [disabled], and then [onPressIn] is not called. *)
Definition pressIn (props : PinButtonProps) (backgroundColor : option string)
    (r : State) : M (option string) :=
  match props with
  | DisabledProps _ => ret backgroundColor
  | _ => onPressIn props r
  end.

End PinButton.

(** The buttons of the keypad, row by row. *)
Definition keypadButtons : list (list PinButtonProps) :=
  [ [ValueProps "1"; ValueProps "2"; ValueProps "3"];
    [ValueProps "4"; ValueProps "5"; ValueProps "6"];
    [ValueProps "7"; ValueProps "8"; ValueProps "9"];
    [DisabledProps true; ValueProps "0"; DeleteProps true] ].

(** ** Runs of the screen *)

(** The characters of a run of presses, in order. *)
Definition joined (values : list string) : string :=
  fold_right String.append EmptyString values.

(** A well-formed entry: four presses of digit buttons. *)
Definition entry (values : list string) : Prop :=
  Forall (fun value => In value digits) values /\ List.length values = PIN_COUNT.

(** ** A root that commits every setter call *)





(** ** Fixtures for concrete runs *)

Definition authParams : Params := mkParams PinAuth true true (Some "TouchID").
Definition setParams : Params := mkParams PinSet true true None.
Definition resetParams : Params := mkParams PinReset true true None.

(** A world holding the PIN 1234 and a persisted retry count. *)
Definition stored1234 (count : option string) : World :=
  mkWorld (mkCredentials "1234" EmptyString) count [].

(** A screen in the given mode with the buffer and the retry count set. *)
Definition screen (t : PinType) (buffer : string) (count : nat) (w : World) : Sys :=
  mkSys (mkState t buffer PhInput (JS.Num count) false) w.

(** ** Invariants of the mounted screen *)

(** What holds of every state the screen can reach: the buffer holds at most
    four characters; the mode is the one the screen was opened in; the retry
    count in memory is either the initial 0 or what the storage holds; and
    the lockout prompt is up only in Authenticate mode with at least ten
    counted failures. *)
Definition invariant params (s : Sys) : Prop :=
  String.length (inputPin (ui s)) <= PIN_COUNT /\
  pinType (ui s) = type params /\
  (pinTryCount (ui s) = JS.Num 0 \/
   JS.ToNumber (JS.or_else (PIN_TRY_COUNT (world s)) "0") = pinTryCount (ui s)) /\
  (visibleResetModal (ui s) = true ->
   type params = PinAuth /\ JS.ge (pinTryCount (ui s)) PIN_TRY_MAX = true).

(** ** Running handlers *)

(** Unfolding one transition down to the records. *)
Ltac exec :=
  unfold perform, run, deferLockout,
    handleInput, handleDelete, handlePin, biometricEffect,
    focusEffect, focusCleanup, mountEffect, tryCountEffect, pinTypeEffect,
    lockoutCheck, onResetPin, onLater, onClose, resultCallback,
    initPinTryCount, increasePinTryCount, resetPinTryCount, clearInputPin,
    getPin, getNewPin, savePin, saveNewPin, resetNewPin, removeKeys,
    AsyncStorage.getItem, AsyncStorage.setItem,
    setPinType, setInputPin, setPinConfigurePhase, setPinTryCount,
    setVisibleResetModal, emit, modify_credentials, modify_ui, modify_world,
    when, bind, ret in *.

(** Reading the fields of explicit records. *)
Ltac fields :=
  cbn [ui world pinType inputPin pinConfigurePhase pinTryCount
       visibleResetModal credentials PIN_TRY_COUNT events pin newPin
       fst snd] in *.

(** Opening a system into its fields. *)
Ltac open_sys s :=
  let t := fresh "t" in let buffer := fresh "buffer" in
  let phase := fresh "phase" in let count := fresh "count" in
  let visible := fresh "visible" in let stored := fresh "stored" in
  let staged := fresh "staged" in let item := fresh "item" in
  let trace := fresh "trace" in
  destruct s as [[t buffer phase count visible] [[stored staged] item trace]];
  simpl in *.

(** Splitting the invariant into its four parts. *)
Ltac split_inv := unfold invariant; fields; refine (conj _ (conj _ (conj _ _))).

(** Reading off what a transition added to the calls made. *)
Ltac added H :=
  rewrite <- ?app_assoc in H;
  first [ apply app_inv_head in H
        | match type of H with
          | ?l = (?l ++ _)%list =>
              rewrite <- (app_nil_r l) in H at 1; apply app_inv_head in H
          end ];
  subst.

(** ** Facts about strings and numbers *)

Lemma PinType_eqb_spec a b : reflect (a = b) (PinType_eqb a b).
Proof. destruct a, b; constructor; congruence. Qed.

Lemma length_append (a b : string) :
  String.length (a ++ b) = String.length a + String.length b.
Proof. induction a as [|c a IH]; simpl; [reflexivity | now rewrite IH]. Qed.

Lemma substring_0_append (a b : string) :
  substring 0 (String.length a) (a ++ b) = a.
Proof.
  induction a as [|c a IH]; simpl.
  - now destruct b.
  - now rewrite IH.
Qed.

Lemma substring_0_length (n : nat) (a : string) :
  String.length (substring 0 n a) = Nat.min n (String.length a).
Proof.
  revert n; induction a as [|c a IH]; intros [|n]; simpl; auto.
Qed.

(** Every non-empty string is a string followed by one character. *)
Lemma string_snoc (a : string) :
  a = EmptyString \/ exists b c, a = b ++ String c EmptyString.
Proof.
  induction a as [|c a [->|(b & d & ->)]].
  - now left.
  - right. now exists EmptyString, c.
  - right. now exists (String c b), d.
Qed.

Lemma slice_last_empty : JS.slice EmptyString 0 (-1) = EmptyString.
Proof. reflexivity. Qed.

Lemma slice_last_snoc (b : string) (c : ascii) :
  JS.slice (b ++ String c EmptyString) 0 (-1) = b.
Proof.
  unfold JS.slice. rewrite length_append. simpl String.length.
  change (0 <? 0)%Z with false. change (-1 <? 0)%Z with true. cbv iota.
  replace (Z.to_nat (Z.min 0 (Z.of_nat (String.length b + 1)))) with 0 by lia.
  replace (Z.to_nat _) with (String.length b) by lia.
  apply substring_0_append.
Qed.

Lemma slice_last_length (a : string) :
  String.length (JS.slice a 0 (-1)) = String.length a - 1.
Proof.
  destruct (string_snoc a) as [->|(b & c & ->)].
  - reflexivity.
  - rewrite slice_last_snoc, length_append. simpl. lia.
Qed.

Lemma digits_length (d : string) :
  existsb (String.eqb d) digits = true -> String.length d = 1.
Proof.
  unfold digits. simpl. intros H.
  repeat (apply orb_prop in H; destruct H as [H|H];
          [apply String.eqb_eq in H; now subst|]).
  discriminate.
Qed.

Lemma ToString_not_empty (x : JS.Number) : JS.not (JS.ToString x) = false.
Proof.
  destruct x as [n|]; [|reflexivity].
  unfold JS.ToString, NilZero.string_of_uint.
  now destruct (Nat.to_uint n).
Qed.

(** What [String] writes, [Number] reads back. *)
Lemma ToNumber_ToString (x : JS.Number) : JS.ToNumber (JS.ToString x) = x.
Proof.
  destruct x as [n|]; [|reflexivity].
  unfold JS.ToNumber, JS.ToString, NilZero.string_of_uint.
  pose proof (Unsigned.of_to n) as E.
  destruct (Nat.to_uint n) eqn:D;
    try (rewrite NilEmpty.usu; now rewrite E).
  simpl in *. now subst.
Qed.

Lemma stored_count_read_back (x : JS.Number) :
  JS.ToNumber (JS.or_else (Some (JS.ToString x)) "0") = x.
Proof.
  unfold JS.or_else. rewrite ToString_not_empty. apply ToNumber_ToString.
Qed.

(** ** The digit buffer *)

Lemma handleInput_full (s : Sys) (value : string) :
  PIN_COUNT <= String.length (inputPin (ui s)) ->
  run (fun r => handleInput r value) s = s.
Proof.
  intros H. exec. apply Nat.leb_le in H. now rewrite H.
Qed.

Lemma handleInput_room (s : Sys) (value : string) :
  String.length (inputPin (ui s)) < PIN_COUNT ->
  run (fun r => handleInput r value) s =
  mkSys (mkState (pinType (ui s)) (inputPin (ui s) ++ value)
           (pinConfigurePhase (ui s)) (pinTryCount (ui s))
           (visibleResetModal (ui s)))
        (world s).
Proof.
  intros H. exec. apply Nat.leb_gt in H. now rewrite H.
Qed.

Lemma pressAll_length params (values : list string) :
  Forall (fun value => existsb (String.eqb value) digits = true) values ->
  forall s, String.length (inputPin (ui s)) <= PIN_COUNT ->
  String.length (inputPin (ui (pressAll params values s))) =
  Nat.min PIN_COUNT (String.length (inputPin (ui s)) + List.length values).
Proof.
  unfold PIN_COUNT, pressAll.
  induction 1 as [|value values Hd _ IH]; intros s Hs;
    cbn [fold_left List.length].
  - lia.
  - apply digits_length in Hd.
    pose proof (handleInput_full s value) as Full.
    pose proof (handleInput_room s value) as Room.
    unfold PIN_COUNT in Full, Room.
    change (perform params (PressDigit value) s)
      with (run (fun r => handleInput r value) s).
    destruct (Nat.eq_dec (String.length (inputPin (ui s))) 4) as [E|E].
    + rewrite Full by lia. rewrite IH by lia. lia.
    + rewrite Room by lia.
      rewrite IH; cbn [ui inputPin]; rewrite length_append; lia.
Qed.

Lemma handleDelete_run (s : Sys) :
  run handleDelete s =
  mkSys (mkState (pinType (ui s)) (JS.slice (inputPin (ui s)) 0 (-1))
           (pinConfigurePhase (ui s)) (pinTryCount (ui s))
           (visibleResetModal (ui s)))
        (world s).
Proof.
  exec.
  destruct (String.length (inputPin (ui s)) <=? 0) eqn:E1; [|reflexivity].
  destruct (PIN_COUNT <=? String.length (inputPin (ui s))) eqn:E2; [|reflexivity].
  apply Nat.leb_le in E1, E2. unfold PIN_COUNT in E2. lia.
Qed.

(** ** The invariant is established and preserved *)

Lemma invariant_mount params (w : World) : invariant params (mount params w).
Proof.
  unfold invariant, mount, initialState; simpl.
  repeat split; auto; try discriminate. unfold PIN_COUNT; lia.
Qed.

Lemma invariant_step params (s : Sys) (a : Action) :
  invariant params s -> enabled a s = true ->
  invariant params (perform params a s).
Proof.
  intros (Hlen & Hmode & Hcount & Hvis) Hen.
  destruct a.
  - (* a digit *)
    apply digits_length in Hen.
    change (perform params (PressDigit value) s)
      with (run (fun r => handleInput r value) s).
    destruct (Nat.eq_dec (String.length (inputPin (ui s))) PIN_COUNT) as [E|E].
    + rewrite handleInput_full by lia. split_inv; auto.
    + rewrite handleInput_room by lia. split_inv; auto; simpl.
      rewrite length_append. lia.
  - (* delete *)
    change (perform params PressDelete s) with (run handleDelete s).
    rewrite handleDelete_run. split_inv; auto; simpl.
    rewrite slice_last_length. lia.
  - (* forgot *)
    open_sys s. exec. simpl. split_inv; auto.
  - (* close *)
    open_sys s. exec. destruct (cancel params); simpl; split_inv; auto.
  - (* reset, on the prompt *)
    open_sys s. exec. simpl. split_inv; auto.
  - (* later, on the prompt *)
    open_sys s. exec. simpl. split_inv; auto.
  - (* focus *)
    open_sys s. exec. simpl.
    destruct Hcount as [->|Hcount].
    + destruct visible;
        [destruct (Hvis eq_refl) as [_ G]; vm_compute in G; discriminate|].
      simpl. rewrite andb_false_r.
      destruct (PinType_eqb_spec (type params) PinAuth) as [E|E]; simpl.
      * destruct (JS.ge _ _) eqn:G; simpl; split_inv; auto; discriminate.
      * split_inv; auto; discriminate.
    + rewrite Hcount.
      destruct (PinType_eqb_spec (type params) PinAuth) as [E|E]; simpl.
      * destruct (JS.ge count PIN_TRY_MAX) eqn:G; simpl; split_inv; auto;
          intros V; destruct (Hvis V); now split.
      * split_inv; auto.
  - (* blur *)
    open_sys s. exec. simpl. split_inv; auto; discriminate.
  - (* mount effect *)
    open_sys s. exec. simpl.
    destruct Hcount as [->|Hcount].
    + destruct visible;
        [destruct (Hvis eq_refl) as [_ G]; vm_compute in G; discriminate|].
      split_inv; auto; try discriminate. simpl; unfold PIN_COUNT; lia.
    + rewrite Hcount. split_inv; auto. simpl; unfold PIN_COUNT; lia.
  - (* retry-count effect *)
    open_sys s. exec. simpl.
    destruct (PinType_eqb_spec (type params) PinAuth) as [E|E]; simpl.
    + destruct (JS.ge count PIN_TRY_MAX) eqn:G; simpl; split_inv; auto;
          intros V; destruct (Hvis V); now split.
    + split_inv; auto.
  - (* mode effect *)
    open_sys s. exec. simpl. split_inv; auto.
  - (* biometric effect *)
    open_sys s. exec. simpl.
    destruct t, (biometricType params), o, (result params); simpl;
      split_inv; auto.
  - (* evaluation *)
    open_sys s. exec. simpl.
    assert (Hzero : 0 <= PIN_COUNT) by (unfold PIN_COUNT; lia).
    destruct t; simpl;
      (destruct (String.length buffer =? 4); simpl; [|split_inv; now auto]).
    + destruct (String.eqb staged EmptyString); simpl.
      * split_inv; auto.
      * destruct (String.eqb staged buffer), (result params); simpl;
          split_inv; auto; discriminate.
    + destruct (JS.not stored || String.eqb buffer stored), (result params);
        simpl; split_inv; auto; try discriminate.
      all: try (right; apply stored_count_read_back).
      all: intros V; destruct (Hvis V) as [A G]; split; auto.
      all: destruct count; cbn [JS.ge JS.add] in *; try discriminate.
      all: apply Nat.leb_le in G; apply Nat.leb_le; lia.
    + destruct (String.eqb staged EmptyString); simpl.
      * split_inv; auto.
      * destruct (String.eqb staged buffer), (result params); simpl;
          split_inv; auto; discriminate.
Qed.

(** Every reachable state satisfies the invariant. *)
Lemma reachable_invariant params (s : Sys) :
  reachable params s -> invariant params s.
Proof.
  induction 1 as [w|s a _ IH Hen].
  - apply invariant_mount.
  - now apply invariant_step.
Qed.

(** ** Appending and deleting digits *)

(** C8. Appending a digit to a buffer that already holds four is a no-op,
    and otherwise puts the digit at the end of the buffer; so after at most
    four digit presses from an empty buffer the length of the buffer is the
    number of presses, and in no reachable state does the buffer hold more
    than four characters. *)
Theorem handleInput_appends params :
  (forall s value,
     PIN_COUNT <= String.length (inputPin (ui s)) ->
     run (fun r => handleInput r value) s = s) /\
  (forall s value,
     String.length (inputPin (ui s)) < PIN_COUNT ->
     inputPin (ui (run (fun r => handleInput r value) s)) = inputPin (ui s) ++ value) /\
  (forall s values,
     inputPin (ui s) = EmptyString ->
     Forall (fun value => In value digits) values ->
     List.length values <= PIN_COUNT ->
     String.length (inputPin (ui (pressAll params values s))) = List.length values) /\
  (forall s, reachable params s -> String.length (inputPin (ui s)) <= PIN_COUNT).
Proof.
  split; [|split; [|split]].
  - intros s value H. now apply handleInput_full.
  - intros s value H. now rewrite handleInput_room.
  - intros s values Hs Hd Hn.
    rewrite pressAll_length.
    + rewrite Hs. cbn [String.length]. lia.
    + eapply Forall_impl; [|exact Hd].
      intros value Hin. apply existsb_exists. exists value.
      split; [exact Hin | apply String.eqb_refl].
    + rewrite Hs. cbn [String.length]. lia.
  - intros s Hs. now destruct (reachable_invariant params s Hs).
Qed.

Lemma handleInput_appends_witness :
  run (fun r => handleInput r "5") (screen PinAuth "1234" 0 (stored1234 None))
    = screen PinAuth "1234" 0 (stored1234 None) /\
  inputPin (ui (run (fun r => handleInput r "5")
                  (screen PinAuth "12" 0 (stored1234 None)))) = "125" /\
  String.length (inputPin (ui (pressAll authParams ["7"; "0"; "7"]
                                 (mount authParams (stored1234 None))))) = 3 /\
  String.length (inputPin (ui (perform authParams (PressDigit "9")
                                 (mount authParams (stored1234 None))))) <= PIN_COUNT.
Proof.
  destruct (handleInput_appends authParams) as (Full & Room & Run & Bound).
  split; [|split; [|split]].
  - apply (Full (screen PinAuth "1234" 0 (stored1234 None)) "5"). simpl. unfold PIN_COUNT. lia.
  - apply (Room (screen PinAuth "12" 0 (stored1234 None)) "5"). simpl. unfold PIN_COUNT. lia.
  - apply (Run (mount authParams (stored1234 None)) ["7"; "0"; "7"]).
    + reflexivity.
    + repeat constructor; vm_compute; tauto.
    + simpl. unfold PIN_COUNT. lia.
  - apply Bound. apply reachable_step; [apply reachable_mount | reflexivity].
Defined.

(** C9. Deleting from an empty buffer leaves it empty and the screen as it
    was; deleting from a non-empty buffer removes exactly its last
    character; either way the length drops by one, stopping at zero, and
    nothing but the buffer changes. *)
Theorem handleDelete_removes_last (s : Sys) :
  (inputPin (ui s) = EmptyString -> run handleDelete s = s) /\
  (forall b c, inputPin (ui s) = b ++ String c EmptyString ->
     inputPin (ui (run handleDelete s)) = b) /\
  String.length (inputPin (ui (run handleDelete s))) =
    String.length (inputPin (ui s)) - 1 /\
  world (run handleDelete s) = world s /\
  pinType (ui (run handleDelete s)) = pinType (ui s) /\
  pinConfigurePhase (ui (run handleDelete s)) = pinConfigurePhase (ui s) /\
  pinTryCount (ui (run handleDelete s)) = pinTryCount (ui s) /\
  visibleResetModal (ui (run handleDelete s)) = visibleResetModal (ui s).
Proof.
  rewrite handleDelete_run. fields.
  split; [|split; [|split]]; auto.
  - intros E. rewrite E, slice_last_empty. open_sys s. now subst.
  - intros b c E. rewrite E. apply slice_last_snoc.
  - apply slice_last_length.
Qed.

Lemma handleDelete_removes_last_witness :
  run handleDelete (mount authParams (stored1234 None))
    = mount authParams (stored1234 None) /\
  inputPin (ui (run handleDelete (screen PinAuth "123" 0 (stored1234 None)))) = "12".
Proof.
  split.
  - apply (handleDelete_removes_last (mount authParams (stored1234 None))).
    reflexivity.
  - destruct (handleDelete_removes_last (screen PinAuth "123" 0 (stored1234 None)))
      as (_ & Last & _).
    apply (Last "12" "3"%char). reflexivity.
Defined.

(** ** Evaluating a completed buffer *)

(** The evaluation in Authenticate mode, in one equation: [m] is the
    outcome of the comparison. *)
Lemma handlePin_auth_run params (s : Sys) :
  pinType (ui s) = PinAuth ->
  String.length (inputPin (ui s)) = 4 ->
  let stored := pin (credentials (world s)) in
  let m := JS.not stored || String.eqb (inputPin (ui s)) stored in
  let count := if m then JS.Num 0 else JS.add (pinTryCount (ui s)) 1 in
  run (handlePin params) s =
  mkSys (mkState PinAuth EmptyString (pinConfigurePhase (ui s)) count
           (if m then false else visibleResetModal (ui s)))
        (mkWorld (credentials (world s)) (Some (JS.ToString count))
           (events (world s) ++ if result params then [Result m] else [])).
Proof.
  open_sys s. intros -> Hlen. cbv zeta. exec. fields.
  rewrite Hlen. cbn [Nat.eqb]. fields.
  destruct (JS.not stored || String.eqb buffer stored), (result params);
    fields; rewrite ?app_nil_r; reflexivity.
Qed.

(** C1. In Authenticate mode, with four digits in the buffer and a PIN in
    the store, the evaluation compares the two.  When they are equal the
    retry count becomes 0 (in memory and in storage), the buffer is emptied
    and the result callback is called with true; when they differ the retry
    count grows by exactly one (in memory and in storage), the buffer is
    emptied and the result callback is called with false.  The callback is
    called when the screen was given one. *)
Theorem handlePin_auth_compares params (s : Sys) :
  pinType (ui s) = PinAuth ->
  String.length (inputPin (ui s)) = 4 ->
  pin (credentials (world s)) <> EmptyString ->
  let s' := run (handlePin params) s in
  (inputPin (ui s) = pin (credentials (world s)) ->
     pinTryCount (ui s') = JS.Num 0 /\
     PIN_TRY_COUNT (world s') = Some "0" /\
     inputPin (ui s') = EmptyString /\
     events (world s') =
       (events (world s) ++ (if result params then [Result true] else []))%list) /\
  (inputPin (ui s) <> pin (credentials (world s)) ->
     pinTryCount (ui s') = JS.add (pinTryCount (ui s)) 1 /\
     (forall n, pinTryCount (ui s) = JS.Num n ->
                pinTryCount (ui s') = JS.Num (n + 1) /\
                PIN_TRY_COUNT (world s') = Some (JS.ToString (JS.Num (n + 1)))) /\
     inputPin (ui s') = EmptyString /\
     events (world s') =
       (events (world s) ++ (if result params then [Result false] else []))%list) /\
  credentials (world s') = credentials (world s) /\
  pinType (ui s') = pinType (ui s) /\
  pinConfigurePhase (ui s') = pinConfigurePhase (ui s).
Proof.
  intros Hmode Hlen Hpin s'. subst s'.
  rewrite (handlePin_auth_run params s Hmode Hlen). fields.
  apply String.eqb_neq in Hpin. unfold JS.not. rewrite Hpin. cbn [orb].
  split; [|split; [|now rewrite Hmode]].
  - intros E. apply String.eqb_eq in E. rewrite E. now repeat split.
  - intros E. apply String.eqb_neq in E. rewrite E.
    split; [reflexivity|]. split; [|now split].
    intros n Hn. rewrite Hn. now split.
Qed.

Lemma handlePin_auth_compares_witness :
  pinTryCount (ui (run (handlePin authParams)
                     (screen PinAuth "1234" 3 (stored1234 (Some "3"))))) = JS.Num 0 /\
  pinTryCount (ui (run (handlePin authParams)
                     (screen PinAuth "0000" 3 (stored1234 (Some "3"))))) = JS.Num 4 /\
  events (world (run (handlePin authParams)
                   (screen PinAuth "0000" 3 (stored1234 (Some "3"))))) = [Result false].
Proof.
  destruct (handlePin_auth_compares authParams
              (screen PinAuth "1234" 3 (stored1234 (Some "3")))
              eq_refl eq_refl ltac:(discriminate)) as (Same & _ & _).
  destruct (handlePin_auth_compares authParams
              (screen PinAuth "0000" 3 (stored1234 (Some "3")))
              eq_refl eq_refl ltac:(discriminate)) as (_ & Differ & _).
  split; [|split].
  - apply Same. reflexivity.
  - apply Differ. discriminate.
  - apply Differ. discriminate.
Defined.

(** C2. In Authenticate mode with no PIN in the store, every completed
    four-digit buffer counts as a match: the result callback is called with
    true, and the retry count is set to 0 (in memory and in storage) whatever
    it was, so it is never incremented. *)
Theorem handlePin_auth_pass_through params (s : Sys) :
  pinType (ui s) = PinAuth ->
  String.length (inputPin (ui s)) = 4 ->
  pin (credentials (world s)) = EmptyString ->
  let s' := run (handlePin params) s in
  events (world s') =
    (events (world s) ++ (if result params then [Result true] else []))%list /\
  pinTryCount (ui s') = JS.Num 0 /\
  PIN_TRY_COUNT (world s') = Some "0" /\
  inputPin (ui s') = EmptyString /\
  visibleResetModal (ui s') = false.
Proof.
  intros Hmode Hlen Hpin s'. subst s'.
  rewrite (handlePin_auth_run params s Hmode Hlen). fields.
  rewrite Hpin. cbn [JS.not String.eqb orb]. now repeat split.
Qed.

Lemma handlePin_auth_pass_through_witness :
  let s := screen PinAuth "4711" 6 (mkWorld (mkCredentials EmptyString EmptyString) (Some "6") []) in
  events (world (run (handlePin authParams) s)) = [Result true] /\
  pinTryCount (ui (run (handlePin authParams) s)) = JS.Num 0.
Proof.
  intros s.
  destruct (handlePin_auth_pass_through authParams s eq_refl eq_refl eq_refl)
    as (Ev & Count & _).
  split; [exact Ev | exact Count].
Defined.

(** C3. In Set and Reset mode, with four digits in the buffer: when no PIN
    is staged, the buffer is staged and the phase becomes Confirm; when the
    staged PIN equals the buffer, the PIN is saved, success is reported (an
    alert, and the result callback with true) and the phase becomes Done in
    Set mode and stays what it was in Reset mode; when the staged PIN
    differs, failure is alerted and the phase becomes Input.  Both
    confirmation branches empty the staged PIN, and the buffer is emptied in
    every branch. *)
Theorem handlePin_configure params (s : Sys) :
  pinType (ui s) <> PinAuth ->
  String.length (inputPin (ui s)) = 4 ->
  let s' := run (handlePin params) s in
  let staged := newPin (credentials (world s)) in
  inputPin (ui s') = EmptyString /\
  pinType (ui s') = pinType (ui s) /\
  (staged = EmptyString ->
     newPin (credentials (world s')) = inputPin (ui s) /\
     pin (credentials (world s')) = pin (credentials (world s)) /\
     pinConfigurePhase (ui s') = PhConfirm /\
     events (world s') = events (world s)) /\
  (staged = inputPin (ui s) ->
     pin (credentials (world s')) = inputPin (ui s) /\
     newPin (credentials (world s')) = EmptyString /\
     events (world s') =
       (events (world s)
          ++ Alert success "PIN code has been set up successfully."
          :: (if result params then [Result true] else []))%list /\
     (pinType (ui s) = PinSet -> pinConfigurePhase (ui s') = PhDone) /\
     (pinType (ui s) = PinReset ->
        pinConfigurePhase (ui s') = pinConfigurePhase (ui s))) /\
  (staged <> EmptyString -> staged <> inputPin (ui s) ->
     pin (credentials (world s')) = pin (credentials (world s)) /\
     newPin (credentials (world s')) = EmptyString /\
     events (world s') =
       (events (world s) ++ [Alert error "Failed to set up PIN code."])%list /\
     pinConfigurePhase (ui s') = PhInput).
Proof.
  open_sys s. intros Hmode Hlen. cbv zeta.
  destruct t; try congruence; clear Hmode.
  all: exec; fields; rewrite Hlen; cbn [Nat.eqb]; fields.
  all: destruct (String.eqb_spec staged EmptyString) as [E0|E0]; fields.
  all: try (destruct (String.eqb_spec staged buffer) as [E|E];
            cbn [PinType_eqb negb]; fields;
            destruct (result params); fields; rewrite <- ?app_assoc).
  all: repeat split; auto; try congruence.
  all: subst; discriminate Hlen.
Qed.

Lemma handlePin_configure_witness :
  let first := run (handlePin setParams) (screen PinSet "2580" 0 (stored1234 None)) in
  let again := run (handlePin setParams)
                 (mkSys (mkState PinSet "2580" PhConfirm (JS.Num 0) false) (world first)) in
  let other := run (handlePin setParams)
                 (mkSys (mkState PinSet "2581" PhConfirm (JS.Num 0) false) (world first)) in
  (newPin (credentials (world first)) = "2580" /\
   pinConfigurePhase (ui first) = PhConfirm) /\
  (pin (credentials (world again)) = "2580" /\
   pinConfigurePhase (ui again) = PhDone) /\
  (newPin (credentials (world other)) = EmptyString /\
   pinConfigurePhase (ui other) = PhInput).
Proof.
  intros first again other.
  destruct (handlePin_configure setParams
              (screen PinSet "2580" 0 (stored1234 None))
              ltac:(discriminate) eq_refl) as (_ & _ & First & _).
  destruct (handlePin_configure setParams
              (mkSys (mkState PinSet "2580" PhConfirm (JS.Num 0) false) (world first))
              ltac:(discriminate) eq_refl) as (_ & _ & _ & Again & _).
  destruct (handlePin_configure setParams
              (mkSys (mkState PinSet "2581" PhConfirm (JS.Num 0) false) (world first))
              ltac:(discriminate) eq_refl) as (_ & _ & _ & _ & Other).
  split; [|split].
  - destruct (First eq_refl) as (A & _ & B & _). now split.
  - destruct (Again eq_refl) as (A & _ & _ & B & _). split; [exact A | now apply B].
  - destruct Other as (_ & A & _ & B); [discriminate | discriminate |].
    now split.
Defined.

(** ** Evaluating the same buffer twice *)


(** With four characters in the buffer the evaluation empties it, in every
    mode and on every branch. *)
Lemma handlePin_clears params (s : Sys) :
  String.length (inputPin (ui s)) = 4 ->
  inputPin (ui (run (handlePin params) s)) = EmptyString.
Proof.
  open_sys s. intros Hlen. destruct t.
  all: exec; fields; rewrite Hlen; cbn [Nat.eqb]; fields.
  2: now destruct (JS.not stored || String.eqb buffer stored), (result params).
  all: destruct (String.eqb staged EmptyString); fields; [reflexivity|].
  all: destruct (String.eqb staged buffer), (result params); reflexivity.
Qed.




(** ** The lockout prompt: reset or later *)



(** ** The biometric shortcut *)

(** Outside Authenticate mode, or with no biometric capability, the effect
    does nothing. *)
Lemma biometricEffect_skipped params (o : ScanOutcome) (s : Sys) :
  pinType (ui s) <> PinAuth \/ biometricType params = None ->
  run (biometricEffect params o) s = s.
Proof.
  intros [H|H]; exec.
  - now destruct (pinType (ui s)).
  - rewrite H. now destruct (pinType (ui s)).
Qed.

(** The effect only ever adds to the calls made: state and stores stay. *)
Lemma biometricEffect_frame params (o : ScanOutcome) (s : Sys) :
  ui (run (biometricEffect params o) s) = ui s /\
  credentials (world (run (biometricEffect params o) s)) = credentials (world s) /\
  PIN_TRY_COUNT (world (run (biometricEffect params o) s)) = PIN_TRY_COUNT (world s).
Proof.
  open_sys s. exec. fields.
  destruct t, (biometricType params), o, (result params); now repeat split.
Qed.

(** C7. In Authenticate mode with a biometric capability reported, the
    effect calls the scanner whatever the buffer holds.  When the scan
    resolves, the result callback is called with true.  When it rejects, the
    error is logged and that is all: no alert, no callback, the component
    state (hence what is rendered) is unchanged, and a digit press acts
    exactly as it would have without the attempt. *)
Theorem biometric_shortcut params (s : Sys) (b : string) :
  pinType (ui s) = PinAuth ->
  biometricType params = Some b ->
  let scan := Authenticate ("Sign in with " ++ b) in
  events (world (run (biometricEffect params Resolved) s)) =
    (events (world s) ++ scan :: (if result params then [Result true] else []))%list /\
  (forall buffer o,
     events (world (run (biometricEffect params o)
                      (run (fun _ => setInputPin buffer) s))) =
     events (world (run (biometricEffect params o) s))) /\
  (forall err,
     let s' := run (biometricEffect params (Rejected err)) s in
     events (world s') = (events (world s) ++ [scan; ConsoleLog err])%list /\
     ui s' = ui s /\
     render (ui s') = render (ui s) /\
     (forall value,
        enabled (PressDigit value) s' = enabled (PressDigit value) s /\
        ui (perform params (PressDigit value) s') =
        ui (perform params (PressDigit value) s))).
Proof.
  open_sys s. intros -> Hb. cbv zeta. exec. rewrite Hb. fields.
  split; [|split].
  - destruct (result params); fields; rewrite <- ?app_assoc; reflexivity.
  - intros buf [|err]; [now destruct (result params) | reflexivity].
  - intros err. split; [now rewrite <- app_assoc|].
    repeat split. now destruct (PIN_COUNT <=? String.length buffer).
Qed.

Lemma biometric_shortcut_witness :
  let s := screen PinAuth "12" 2 (stored1234 (Some "2")) in
  events (world (run (biometricEffect authParams Resolved) s)) =
    [Authenticate "Sign in with TouchID"; Result true] /\
  events (world (run (biometricEffect authParams (Rejected "cancelled")) s)) =
    [Authenticate "Sign in with TouchID"; ConsoleLog "cancelled"].
Proof.
  intros s.
  destruct (biometric_shortcut authParams s "TouchID" eq_refl eq_refl)
    as (Ok & _ & Ko).
  split; [exact Ok | exact (proj1 (Ko "cancelled"))].
Defined.

(** C10. A resolved scan calls the result callback with true and changes
    nothing else: the component state (retry count, buffer, phase, prompt
    visibility), the persisted retry count and the credentials stay as they
    were.  In particular a retry count that is not zero stays not zero,
    where a matching PIN would have set it to zero. *)
Theorem biometric_success_frame params (s : Sys) (b : string) :
  pinType (ui s) = PinAuth ->
  biometricType params = Some b ->
  let s' := run (biometricEffect params Resolved) s in
  events (world s') =
    (events (world s)
       ++ Authenticate ("Sign in with " ++ b)
       :: (if result params then [Result true] else []))%list /\
  pinTryCount (ui s') = pinTryCount (ui s) /\
  PIN_TRY_COUNT (world s') = PIN_TRY_COUNT (world s) /\
  inputPin (ui s') = inputPin (ui s) /\
  pinConfigurePhase (ui s') = pinConfigurePhase (ui s) /\
  visibleResetModal (ui s') = visibleResetModal (ui s) /\
  pinType (ui s') = pinType (ui s) /\
  credentials (world s') = credentials (world s) /\
  (pinTryCount (ui s) <> JS.Num 0 ->
   pinTryCount (ui s') <> JS.Num 0 /\
   (String.length (inputPin (ui s)) = 4 ->
    inputPin (ui s) = pin (credentials (world s)) ->
    pinTryCount (ui (run (handlePin params) s)) = JS.Num 0)).
Proof.
  intros Hmode Hb s'.
  destruct (biometricEffect_frame params Resolved s) as (Hui & Hcred & Hitem).
  fold s' in Hui, Hcred, Hitem. rewrite Hui.
  split.
  - subst s'. open_sys s. subst t. exec. rewrite Hb. fields.
    destruct (result params); fields; rewrite <- ?app_assoc; reflexivity.
  - repeat split; auto.
    intros Hlen Heq. rewrite (handlePin_auth_run params s Hmode Hlen). fields.
    apply String.eqb_eq in Heq. rewrite Heq, orb_true_r. reflexivity.
Qed.

Lemma biometric_success_frame_witness :
  let s := screen PinAuth "1234" 7 (stored1234 (Some "7")) in
  pinTryCount (ui (run (biometricEffect authParams Resolved) s)) = JS.Num 7 /\
  PIN_TRY_COUNT (world (run (biometricEffect authParams Resolved) s)) = Some "7" /\
  pinTryCount (ui (run (handlePin authParams) s)) = JS.Num 0.
Proof.
  intros s.
  destruct (biometric_success_frame authParams s "TouchID" eq_refl eq_refl)
    as (_ & Count & Item & _ & _ & _ & _ & _ & Contrast).
  split; [exact Count | split; [exact Item |]].
  apply Contrast; [discriminate | reflexivity | reflexivity].
Defined.

(** ** The lockout prompt *)

Lemma ge_spec (x : JS.Number) (k : nat) :
  JS.ge x k = true <-> exists n, x = JS.Num n /\ k <= n.
Proof.
  destruct x as [n|]; simpl; split.
  - intros H. exists n. split; [reflexivity | now apply Nat.leb_le].
  - intros (m & [= <-] & H). now apply Nat.leb_le.
  - discriminate.
  - now intros (m & [=] & _).
Qed.

(** What either check does to the prompt: it raises it on its condition and
    never takes it down. *)
Lemma lockoutCheck_visible params (a : Action) (s : Sys) :
  a = Focus \/ a = TryCountEffect ->
  visibleResetModal (ui (perform params a s)) =
  visibleResetModal (ui s)
  || (PinType_eqb (type params) PinAuth && JS.ge (pinTryCount (ui s)) PIN_TRY_MAX).
Proof.
  open_sys s. intros [-> | ->]; exec; fields.
  all: destruct (PinType_eqb (type params) PinAuth), (JS.ge count PIN_TRY_MAX);
    fields; now rewrite ?orb_true_r, ?orb_false_r.
Qed.

(** C4. In every state the screen can reach, the lockout prompt is up only
    in Authenticate mode with a retry count of at least ten, and once the
    check has run (on focus, or on a change of the retry count) it is up
    exactly then.  So it is never up in Set or Reset mode; at a retry count
    of nine the warning text is shown and the prompt is not, before and
    after the checks; and the mismatch that takes the count from nine to ten
    brings the prompt up at the next check. *)
Theorem lockout_prompt_visibility params :
  (forall s, reachable params s ->
     visibleResetModal (ui s) = true ->
     pinType (ui s) = PinAuth /\
     exists n, pinTryCount (ui s) = JS.Num n /\ PIN_TRY_MAX <= n) /\
  (forall s a, reachable params s ->
     a = Focus \/ a = TryCountEffect ->
     (visibleResetModal (ui (perform params a s)) = true <->
      pinType (ui s) = PinAuth /\
      exists n, pinTryCount (ui s) = JS.Num n /\ PIN_TRY_MAX <= n)) /\
  (forall s, reachable params s ->
     pinType (ui s) <> PinAuth ->
     modalVisible (render (ui s)) = false) /\
  (forall s, reachable params s ->
     pinType (ui s) = PinAuth ->
     pinTryCount (ui s) = JS.Num 9 ->
     lockoutWarning (render (ui s)) = WARNING /\
     modalVisible (render (ui s)) = false /\
     modalVisible (render (ui (perform params Focus s))) = false /\
     modalVisible (render (ui (perform params TryCountEffect s))) = false) /\
  (forall s, reachable params s ->
     pinType (ui s) = PinAuth ->
     pinTryCount (ui s) = JS.Num 9 ->
     String.length (inputPin (ui s)) = 4 ->
     pin (credentials (world s)) <> EmptyString ->
     inputPin (ui s) <> pin (credentials (world s)) ->
     let failed := perform params HandlePinEffect s in
     pinTryCount (ui failed) = JS.Num 10 /\
     modalVisible (render (ui failed)) = false /\
     modalVisible (render (ui (perform params TryCountEffect failed))) = true).
Proof.
  assert (Only : forall s, reachable params s ->
            visibleResetModal (ui s) = true ->
            pinType (ui s) = PinAuth /\
            exists n, pinTryCount (ui s) = JS.Num n /\ PIN_TRY_MAX <= n).
  { intros s Hs V.
    destruct (reachable_invariant params s Hs) as (_ & Hmode & _ & Hvis).
    destruct (Hvis V) as [A G]. split; [congruence | now apply ge_spec]. }
  assert (After : forall s a, reachable params s ->
            a = Focus \/ a = TryCountEffect ->
            (visibleResetModal (ui (perform params a s)) = true <->
             pinType (ui s) = PinAuth /\
             exists n, pinTryCount (ui s) = JS.Num n /\ PIN_TRY_MAX <= n)).
  { intros s a Hs Ha. rewrite (lockoutCheck_visible params a s Ha).
    destruct (reachable_invariant params s Hs) as (_ & Hmode & _ & _).
    rewrite <- ge_spec, Hmode. split.
    - intros H. apply orb_prop in H. destruct H as [V|C].
      + rewrite <- Hmode, ge_spec. now apply Only.
      + apply andb_prop in C. destruct C as [C G].
        split; [now destruct (PinType_eqb_spec (type params) PinAuth) | exact G].
    - intros [-> ->]. apply orb_true_r. }
  assert (Nine : forall s, reachable params s ->
            pinTryCount (ui s) = JS.Num 9 ->
            visibleResetModal (ui s) = false /\
            visibleResetModal (ui (perform params Focus s)) = false /\
            visibleResetModal (ui (perform params TryCountEffect s)) = false).
  { intros s Hs Hc.
    assert (No : ~ (pinType (ui s) = PinAuth /\
                    exists n, pinTryCount (ui s) = JS.Num n /\ PIN_TRY_MAX <= n)).
    { intros (_ & n & E & Hn). rewrite Hc in E. injection E as <-.
      unfold PIN_TRY_MAX in Hn. lia. }
    repeat split; apply not_true_is_false; intros V; apply No.
    - now apply Only.
    - apply (After s Focus); auto.
    - apply (After s TryCountEffect); auto. }
  split; [exact Only|]. split; [exact After|]. split; [|split].
  - intros s Hs Hmode. apply not_true_is_false. intros V.
    now destruct (Only s Hs V).
  - intros s Hs Hmode Hc. split; [|now apply Nine].
    unfold render, lockoutWarning. now rewrite Hmode, Hc.
  - intros s Hs Hmode Hc Hlen Hpin Hne failed.
    assert (Hf : reachable params failed)
      by (now apply reachable_step).
    assert (Hten : pinTryCount (ui failed) = JS.Num 10).
    { subst failed. unfold perform.
      rewrite (handlePin_auth_run params s Hmode Hlen). fields.
      apply String.eqb_neq in Hpin, Hne. unfold JS.not.
      now rewrite Hpin, Hne, Hc. }
    assert (Hauth : pinType (ui failed) = PinAuth).
    { subst failed. unfold perform.
      now rewrite (handlePin_auth_run params s Hmode Hlen). }
    split; [exact Hten|]. split.
    + subst failed. unfold perform.
      rewrite (handlePin_auth_run params s Hmode Hlen). fields.
      apply String.eqb_neq in Hpin, Hne. unfold JS.not.
      rewrite Hpin, Hne. cbn [orb render modalVisible visibleResetModal].
      now apply Nine.
    + apply (After failed TryCountEffect Hf); auto.
      split; [exact Hauth|]. exists 10. split; [exact Hten|].
      unfold PIN_TRY_MAX. lia.
Qed.

Lemma lockout_prompt_visibility_witness :
  let ten := perform authParams MountEffect
               (mount authParams (stored1234 (Some "10"))) in
  let nine := perform authParams MountEffect
                (mount authParams (stored1234 (Some "9"))) in
  let typed := pressAll authParams ["0"; "0"; "0"; "0"] nine in
  let twelve := perform setParams MountEffect
                  (mount setParams (stored1234 (Some "12"))) in
  visibleResetModal (ui (perform authParams TryCountEffect ten)) = true /\
  (lockoutWarning (render (ui nine)) = WARNING /\
   modalVisible (render (ui (perform authParams TryCountEffect nine))) = false) /\
  modalVisible (render (ui (perform authParams TryCountEffect
                              (perform authParams HandlePinEffect typed)))) = true /\
  modalVisible (render (ui (perform setParams TryCountEffect twelve))) = false.
Proof.
  intros ten nine typed twelve.
  assert (Hten : reachable authParams ten)
    by (apply reachable_step; [apply reachable_mount | reflexivity]).
  assert (Hnine : reachable authParams nine)
    by (apply reachable_step; [apply reachable_mount | reflexivity]).
  assert (Htyped : reachable authParams typed)
    by (unfold typed, pressAll; cbn [fold_left];
        do 4 (apply reachable_step; [|reflexivity]); exact Hnine).
  assert (Htwelve : reachable setParams
                      (perform setParams TryCountEffect twelve))
    by (do 2 (apply reachable_step; [|reflexivity]); apply reachable_mount).
  destruct (lockout_prompt_visibility authParams)
    as (_ & After & _ & Nine & Tenth).
  destruct (lockout_prompt_visibility setParams) as (_ & _ & Never & _).
  split; [|split; [|split]].
  - apply (After ten TryCountEffect Hten); [now right|].
    split; [reflexivity|]. exists 10. split; [reflexivity|].
    unfold PIN_TRY_MAX. lia.
  - destruct (Nine nine Hnine eq_refl eq_refl) as (W & _ & _ & V).
    split; [exact W | exact V].
  - apply (Tenth typed Htyped); try reflexivity; discriminate.
  - apply (Never _ Htwelve). discriminate.
Defined.

(** ** The persisted retry count *)

(** X1. What the evaluation persists, the loader reads back: loading right
    after a counted failure, or right after a reset, changes nothing, so the
    count in memory is the old count plus one, respectively zero, on both
    sides of a reload. *)
Theorem retry_count_round_trip (s : Sys) :
  let failed := run increasePinTryCount s in
  let cleared := run (fun _ => resetPinTryCount) s in
  run (fun _ => initPinTryCount) failed = failed /\
  pinTryCount (ui (run (fun _ => initPinTryCount) failed)) =
    JS.add (pinTryCount (ui s)) 1 /\
  run (fun _ => initPinTryCount) cleared = cleared /\
  pinTryCount (ui (run (fun _ => initPinTryCount) cleared)) = JS.Num 0.
Proof.
  open_sys s. exec. fields. unfold JS.or_else.
  rewrite !ToString_not_empty, !ToNumber_ToString.
  now repeat split.
Qed.

(** X2. Loading the retry count when the key is absent, or holds the empty
    string, gives zero; and loading only ever sets the count in memory: the
    storage, the credentials, the calls made, the buffer, the phase and the
    visibility of the prompt are left alone, whatever was stored. *)
Theorem initPinTryCount_missing_key (s : Sys) :
  let s' := run (fun _ => initPinTryCount) s in
  (PIN_TRY_COUNT (world s) = None \/ PIN_TRY_COUNT (world s) = Some EmptyString ->
   pinTryCount (ui s') = JS.Num 0) /\
  world s' = world s /\
  inputPin (ui s') = inputPin (ui s) /\
  pinConfigurePhase (ui s') = pinConfigurePhase (ui s) /\
  visibleResetModal (ui s') = visibleResetModal (ui s) /\
  pinType (ui s') = pinType (ui s).
Proof.
  open_sys s. exec. fields. split; [|now repeat split].
  intros [-> | ->]; reflexivity.
Qed.

Lemma initPinTryCount_missing_key_witness :
  pinTryCount (ui (run (fun _ => initPinTryCount)
                     (screen PinAuth "12" 5 (stored1234 None)))) = JS.Num 0.
Proof.
  apply (initPinTryCount_missing_key (screen PinAuth "12" 5 (stored1234 None))).
  left. reflexivity.
Defined.

(** X3. In every state the screen can reach, the retry count in memory is
    either the initial zero or exactly what the storage reads back as; so
    once failures have been counted, reloading (on focus or on the mount
    effect) never loses or changes the count. *)
Theorem reload_keeps_count params (s : Sys) :
  reachable params s ->
  (pinTryCount (ui s) = JS.Num 0 \/
   JS.ToNumber (JS.or_else (PIN_TRY_COUNT (world s)) "0") = pinTryCount (ui s)) /\
  (pinTryCount (ui s) <> JS.Num 0 ->
   run (fun _ => initPinTryCount) s = s /\
   pinTryCount (ui (perform params Focus s)) = pinTryCount (ui s) /\
   pinTryCount (ui (perform params MountEffect s)) = pinTryCount (ui s)).
Proof.
  intros Hs. destruct (reachable_invariant params s Hs) as (_ & _ & K & _).
  split; [exact K|]. intros Hnz. destruct K as [K|K]; [contradiction|].
  open_sys s. exec. fields. rewrite K. repeat split.
  now destruct (PinType_eqb (type params) PinAuth && JS.ge count PIN_TRY_MAX).
Qed.

Lemma reload_keeps_count_witness :
  let s := perform authParams HandlePinEffect
             (pressAll authParams ["0"; "0"; "0"; "0"]
                (mount authParams (stored1234 (Some "7")))) in
  pinTryCount (ui s) = JS.Num 1 /\
  pinTryCount (ui (perform authParams Focus s)) = JS.Num 1.
Proof.
  intros s.
  assert (Hs : reachable authParams s).
  { unfold s, pressAll. cbn [fold_left].
    do 5 (apply reachable_step; [|reflexivity]). apply reachable_mount. }
  destruct (reload_keeps_count authParams s Hs) as (_ & Keep).
  destruct Keep as (_ & F & _); [discriminate|].
  split; [reflexivity | exact F].
Defined.

(** X4. Between resets the retry count never goes down and moves one step
    at a time: from a reachable state with a count of [n + 1], any single
    press or effect leaves the count, or is an evaluation that either adds
    exactly one or sets it to zero. *)
Theorem retry_count_step params (s : Sys) (n : nat) (a : Action) :
  reachable params s ->
  pinTryCount (ui s) = JS.Num (S n) ->
  let count' := pinTryCount (ui (perform params a s)) in
  count' = JS.Num (S n) \/
  (a = HandlePinEffect /\ String.length (inputPin (ui s)) = 4 /\
   (count' = JS.Num (S (S n)) \/ count' = JS.Num 0)).
Proof.
  intros Hs Hc.
  destruct (reachable_invariant params s Hs) as (_ & _ & K & _).
  destruct K as [K|K]; [congruence|].
  open_sys s. subst count. cbv zeta.
  destruct a; exec; fields; try rewrite K; try rewrite Hc.
  1-12: left.
  - now destruct (PIN_COUNT <=? String.length buffer).
  - now destruct ((String.length buffer <=? 0) && (PIN_COUNT <=? String.length buffer)).
  - reflexivity.
  - now destruct (cancel params).
  - reflexivity.
  - reflexivity.
  - now destruct (PinType_eqb (type params) PinAuth && JS.ge (JS.Num (S n)) PIN_TRY_MAX).
  - reflexivity.
  - reflexivity.
  - now destruct (PinType_eqb (type params) PinAuth && JS.ge (JS.Num (S n)) PIN_TRY_MAX).
  - reflexivity.
  - destruct t, (biometricType params), o, (result params); reflexivity.
  - destruct (String.length buffer =? 4) eqn:L;
      [apply Nat.eqb_eq in L | left; now destruct t].
    destruct t; fields.
    2: { right. split; [reflexivity|]. split; [exact L|].
         destruct (JS.not stored || String.eqb buffer stored), (result params);
           fields; [right | right | left | left]; try reflexivity;
           cbn [JS.add]; now rewrite Nat.add_1_r. }
    all: destruct (String.eqb staged EmptyString); fields; [now left|].
    all: destruct (String.eqb staged buffer), (result params); fields;
         (now left) || (right; split; [reflexivity|]; split; [exact L|]; now right).
Qed.

Lemma retry_count_step_witness :
  let s := pressAll authParams ["0"; "0"; "0"; "0"]
             (perform authParams MountEffect
                (mount authParams (stored1234 (Some "3")))) in
  let count' := pinTryCount (ui (perform authParams HandlePinEffect s)) in
  count' = JS.Num 3 \/
  (HandlePinEffect = HandlePinEffect /\ String.length (inputPin (ui s)) = 4 /\
   (count' = JS.Num 4 \/ count' = JS.Num 0)).
Proof.
  intros s.
  apply (retry_count_step authParams s 2 HandlePinEffect).
  - unfold s, pressAll. cbn [fold_left].
    do 5 (apply reachable_step; [|reflexivity]). apply reachable_mount.
  - reflexivity.
Defined.

(** ** Runs of digit presses *)

Lemma append_assoc (a b c : string) : ((a ++ b) ++ c)%string = (a ++ (b ++ c))%string.
Proof. induction a as [|x a IH]; simpl; [reflexivity | now rewrite IH]. Qed.

Lemma append_empty_r (a : string) : (a ++ EmptyString)%string = a.
Proof. induction a as [|x a IH]; simpl; [reflexivity | now rewrite IH]. Qed.

Lemma substring_0_all (n : nat) (a : string) :
  String.length a <= n -> substring 0 n a = a.
Proof.
  revert n; induction a as [|x a IH]; intros [|n] H; simpl in *;
    try reflexivity; try lia.
  rewrite IH by lia. reflexivity.
Qed.

Lemma digit_one_character (value : string) :
  In value digits -> exists c, value = String c EmptyString.
Proof.
  intros H. assert (L : String.length value = 1).
  { apply digits_length. apply existsb_exists. exists value.
    split; [exact H | apply String.eqb_refl]. }
  destruct value as [|c [|d value]]; try discriminate. now exists c.
Qed.

(** Digit presses touch nothing but the buffer. *)
Lemma pressAll_frame params (values : list string) (s : Sys) :
  pressAll params values s =
  mkSys (mkState (pinType (ui s)) (inputPin (ui (pressAll params values s)))
           (pinConfigurePhase (ui s)) (pinTryCount (ui s))
           (visibleResetModal (ui s)))
        (world s).
Proof.
  unfold pressAll. revert s.
  induction values as [|value values IH]; intros s; cbn [fold_left].
  - now open_sys s.
  - rewrite IH at 1.
    change (perform params (PressDigit value) s)
      with (run (fun r => handleInput r value) s).
    destruct (Nat.le_gt_cases PIN_COUNT (String.length (inputPin (ui s)))) as [F|R].
    + now rewrite handleInput_full.
    + now rewrite handleInput_room.
Qed.

Lemma pressAll_buffer params (values : list string) :
  Forall (fun value => In value digits) values ->
  forall s, String.length (inputPin (ui s)) <= PIN_COUNT ->
  inputPin (ui (pressAll params values s)) =
  substring 0 PIN_COUNT (inputPin (ui s) ++ joined values).
Proof.
  unfold pressAll.
  induction 1 as [|value values Hd _ IH]; intros s Hs;
    cbn [fold_left joined fold_right].
  - rewrite append_empty_r. symmetry. now apply substring_0_all.
  - fold (joined values).
    change (perform params (PressDigit value) s)
      with (run (fun r => handleInput r value) s).
    destruct (digit_one_character value Hd) as [c ->].
    destruct (Nat.eq_dec (String.length (inputPin (ui s))) PIN_COUNT) as [E|E].
    + rewrite handleInput_full by lia. rewrite IH by exact Hs.
      rewrite <- E at 1 2. now rewrite !substring_0_append.
    + rewrite handleInput_room by lia. rewrite IH.
      * cbn [ui inputPin]. now rewrite append_assoc.
      * cbn [ui inputPin]. rewrite length_append. simpl. lia.
Qed.

(** X5. Whatever digits are pressed, and however many, the buffer ends up
    holding the first four characters of what it held followed by what was
    typed; the presses change nothing else, neither in the component nor in
    the world. *)
Theorem pressAll_first_four params (values : list string) (s : Sys) :
  Forall (fun value => In value digits) values ->
  String.length (inputPin (ui s)) <= PIN_COUNT ->
  let s' := pressAll params values s in
  inputPin (ui s') = substring 0 PIN_COUNT (inputPin (ui s) ++ joined values) /\
  world s' = world s /\
  pinType (ui s') = pinType (ui s) /\
  pinConfigurePhase (ui s') = pinConfigurePhase (ui s) /\
  pinTryCount (ui s') = pinTryCount (ui s) /\
  visibleResetModal (ui s') = visibleResetModal (ui s).
Proof.
  intros Hd Hs s'. subst s'. split; [now apply pressAll_buffer|].
  rewrite pressAll_frame. now repeat split.
Qed.

Lemma pressAll_first_four_witness :
  inputPin (ui (pressAll authParams ["9"; "8"; "7"; "6"; "5"; "4"]
                  (screen PinAuth "1" 0 (stored1234 None)))) = "1987".
Proof.
  destruct (pressAll_first_four authParams ["9"; "8"; "7"; "6"; "5"; "4"]
              (screen PinAuth "1" 0 (stored1234 None))) as (First & _).
  - repeat (apply Forall_cons; [simpl; tauto|]). apply Forall_nil.
  - simpl. unfold PIN_COUNT. lia.
  - exact First.
Defined.

(** X6. With room in the buffer, pressing a digit and then delete brings
    the screen back to exactly the state it was in.  With the buffer full
    the digit is dropped, so the delete that follows removes the fourth
    digit instead and leaves three. *)
Theorem append_then_delete (s : Sys) (value : string) :
  In value digits ->
  let pressed := run (fun r => handleInput r value) s in
  (String.length (inputPin (ui s)) < PIN_COUNT -> run handleDelete pressed = s) /\
  (String.length (inputPin (ui s)) = PIN_COUNT ->
   run handleDelete pressed = run handleDelete s /\
   String.length (inputPin (ui (run handleDelete pressed))) = 3).
Proof.
  intros Hd pressed. subst pressed.
  destruct (digit_one_character value Hd) as [c ->]. split.
  - intros R. rewrite handleDelete_run, handleInput_room by exact R.
    cbn [ui world inputPin pinType pinConfigurePhase pinTryCount visibleResetModal].
    rewrite slice_last_snoc. now open_sys s.
  - intros F. rewrite handleInput_full by lia. split; [reflexivity|].
    rewrite handleDelete_run. cbn [ui inputPin].
    rewrite slice_last_length, F. reflexivity.
Qed.

Lemma append_then_delete_witness :
  run handleDelete (run (fun r => handleInput r "7")
                      (screen PinAuth "12" 0 (stored1234 None)))
    = screen PinAuth "12" 0 (stored1234 None) /\
  inputPin (ui (run handleDelete (run (fun r => handleInput r "7")
                                    (screen PinAuth "1234" 0 (stored1234 None)))))
    = "123".
Proof.
  destruct (append_then_delete (screen PinAuth "12" 0 (stored1234 None)) "7")
    as (Back & _); [simpl; tauto|].
  destruct (append_then_delete (screen PinAuth "1234" 0 (stored1234 None)) "7")
    as (_ & Full); [simpl; tauto|].
  split.
  - apply Back. simpl. unfold PIN_COUNT. lia.
  - destruct Full as (E & _); [reflexivity|]. now rewrite E.
Defined.

(** ** Entries: four digits typed, then evaluated *)

Lemma joined_length (values : list string) :
  Forall (fun value => In value digits) values ->
  String.length (joined values) = List.length values.
Proof.
  induction 1 as [|value values Hd _ IH]; [reflexivity|].
  cbn [joined fold_right List.length]. fold (joined values).
  destruct (digit_one_character value Hd) as [c ->]. simpl. now rewrite IH.
Qed.

(** Typing an entry into an empty buffer fills it with the entry. *)
Lemma pressAll_entry params (values : list string) (s : Sys) :
  entry values ->
  inputPin (ui s) = EmptyString ->
  String.length (joined values) = 4 /\
  pressAll params values s =
  mkSys (mkState (pinType (ui s)) (joined values) (pinConfigurePhase (ui s))
           (pinTryCount (ui s)) (visibleResetModal (ui s)))
        (world s).
Proof.
  intros [Hd Hn] Hs.
  assert (L : String.length (joined values) = 4)
    by (rewrite joined_length by exact Hd; exact Hn).
  split; [exact L|].
  rewrite pressAll_frame. rewrite pressAll_buffer; [|exact Hd|rewrite Hs; simpl; lia].
  rewrite Hs. cbn [String.append].
  rewrite substring_0_all; [reflexivity | unfold PIN_COUNT; lia].
Qed.


(** The first entry of the configure flow stages the buffer. *)
Lemma handlePin_stage params (s : Sys) :
  pinType (ui s) <> PinAuth ->
  String.length (inputPin (ui s)) = 4 ->
  newPin (credentials (world s)) = EmptyString ->
  run (handlePin params) s =
  mkSys (mkState (pinType (ui s)) EmptyString PhConfirm (pinTryCount (ui s))
           (visibleResetModal (ui s)))
        (mkWorld (mkCredentials (pin (credentials (world s))) (inputPin (ui s)))
           (PIN_TRY_COUNT (world s)) (events (world s))).
Proof.
  open_sys s. intros Hmode Hlen ->.
  destruct t; try congruence; exec; fields; rewrite Hlen; reflexivity.
Qed.




(** ** What is reported, and what is written *)

(** X9. Success is only reported when it is earned.  If a press or an
    effect calls the result callback with true, then either it is the
    biometric effect, in Authenticate mode with a capability reported and
    the scan resolved; or it is the evaluation of a four-character buffer
    which, in Authenticate mode, equals the stored PIN (or no PIN is
    stored), and in Set or Reset mode equals the staged PIN. *)
Theorem success_is_earned params (s : Sys) (a : Action) (new : list Event) :
  events (world (perform params a s)) = (events (world s) ++ new)%list ->
  In (Result true) new ->
  (a = BiometricEffect Resolved /\ pinType (ui s) = PinAuth /\
   biometricType params <> None) \/
  (a = HandlePinEffect /\ String.length (inputPin (ui s)) = 4 /\
   ((pinType (ui s) = PinAuth /\
     (pin (credentials (world s)) = EmptyString \/
      inputPin (ui s) = pin (credentials (world s)))) \/
    (pinType (ui s) <> PinAuth /\
     newPin (credentials (world s)) = inputPin (ui s)))).
Proof.
  open_sys s. intros H Hin.
  destruct a; exec; fields.
  - destruct (PIN_COUNT <=? String.length buffer); fields; added H; contradiction.
  - destruct ((String.length buffer <=? 0) && (PIN_COUNT <=? String.length buffer));
      fields; added H; contradiction.
  - added H. simpl in Hin. intuition discriminate.
  - destruct (cancel params); fields; added H; simpl in Hin; intuition discriminate.
  - added H. simpl in Hin. intuition discriminate.
  - added H. simpl in Hin. intuition discriminate.
  - destruct (PinType_eqb (type params) PinAuth
              && JS.ge (JS.ToNumber (JS.or_else item "0")) PIN_TRY_MAX);
      destruct (PinType_eqb (type params) PinAuth && JS.ge count PIN_TRY_MAX);
      fields; added H; contradiction.
  - added H. contradiction.
  - added H. contradiction.
  - destruct (PinType_eqb (type params) PinAuth && JS.ge count PIN_TRY_MAX);
      fields; added H; contradiction.
  - added H. contradiction.
  - left. destruct t, (biometricType params) eqn:Hb, o, (result params);
      fields; added H; simpl in Hin;
      try contradiction; intuition discriminate.
  - right. split; [reflexivity|].
    destruct (Nat.eqb_spec (String.length buffer) 4) as [L|L];
      [|destruct t; fields; added H; contradiction].
    split; [exact L|].
    destruct t; fields.
    2: { left. split; [reflexivity|]. unfold JS.not in H.
         destruct (String.eqb_spec stored EmptyString) as [E0|E0];
           [now left|].
         destruct (String.eqb_spec buffer stored) as [E|E]; [now right|].
         cbn [orb] in H. destruct (result params); fields; added H;
           simpl in Hin; intuition discriminate. }
    all: right; split; [discriminate|].
    all: destruct (String.eqb_spec staged EmptyString) as [E0|E0];
         fields; [added H; contradiction|].
    all: destruct (String.eqb_spec staged buffer) as [E|E]; [exact E|].
    all: fields; added H; simpl in Hin; intuition discriminate.
Qed.

Lemma success_is_earned_witness :
  let s := screen PinAuth "1234" 2 (stored1234 (Some "2")) in
  (HandlePinEffect = BiometricEffect Resolved /\ pinType (ui s) = PinAuth /\
   biometricType authParams <> None) \/
  (HandlePinEffect = HandlePinEffect /\ String.length (inputPin (ui s)) = 4 /\
   ((pinType (ui s) = PinAuth /\
     (pin (credentials (world s)) = EmptyString \/
      inputPin (ui s) = pin (credentials (world s)))) \/
    (pinType (ui s) <> PinAuth /\
     newPin (credentials (world s)) = inputPin (ui s)))).
Proof.
  intros s.
  apply (success_is_earned authParams s HandlePinEffect [Result true]).
  - reflexivity.
  - simpl. tauto.
Defined.

(** X10. The active PIN changes in two ways only: the Forgot link and the
    Reset action of the prompt wipe it, and the evaluation of a
    four-character buffer that equals the staged PIN, in Set or Reset mode,
    replaces it by the buffer.  Every other press or effect, and every
    evaluation in Authenticate mode, leaves it as it is. *)
Theorem active_pin_changes params (s : Sys) (a : Action) :
  let pin' := pin (credentials (world (perform params a s))) in
  pin' = pin (credentials (world s)) \/
  ((a = PressForgot \/ a = PressReset) /\ pin' = EmptyString) \/
  (a = HandlePinEffect /\
   pinType (ui s) <> PinAuth /\
   String.length (inputPin (ui s)) = 4 /\
   newPin (credentials (world s)) = inputPin (ui s) /\
   pin' = inputPin (ui s)).
Proof.
  open_sys s. cbv zeta. destruct a; exec; fields.
  - left. now destruct (PIN_COUNT <=? String.length buffer).
  - left.
    now destruct ((String.length buffer <=? 0) && (PIN_COUNT <=? String.length buffer)).
  - right. left. split; [now left | reflexivity].
  - left. now destruct (cancel params).
  - right. left. split; [now right | reflexivity].
  - now left.
  - left.
    now destruct (PinType_eqb (type params) PinAuth && JS.ge count PIN_TRY_MAX).
  - now left.
  - now left.
  - left.
    now destruct (PinType_eqb (type params) PinAuth && JS.ge count PIN_TRY_MAX).
  - now left.
  - left. now destruct t, (biometricType params), o, (result params).
  - destruct (Nat.eqb_spec (String.length buffer) 4) as [L|L];
      [|left; now destruct t].
    destruct t; fields.
    2: { left.
         now destruct (JS.not stored || String.eqb buffer stored), (result params). }
    all: destruct (String.eqb_spec staged EmptyString) as [E0|E0];
         fields; [now left|].
    all: destruct (String.eqb_spec staged buffer) as [E|E]; fields; [|now left].
    all: right; right; destruct (result params); fields;
         repeat split; auto; discriminate.
Qed.

(** X11. The persisted retry count is written by the evaluation of a
    four-character buffer and by nothing else, and what is written is the
    decimal of the count the screen then holds in memory; in particular
    typing, deleting, focusing, the biometric effect and both actions of the
    prompt never write it. *)
Theorem persisted_count_writes params (s : Sys) (a : Action) :
  let s' := perform params a s in
  PIN_TRY_COUNT (world s') = PIN_TRY_COUNT (world s) \/
  (a = HandlePinEffect /\
   String.length (inputPin (ui s)) = 4 /\
   PIN_TRY_COUNT (world s') = Some (JS.ToString (pinTryCount (ui s')))).
Proof.
  open_sys s. cbv zeta. destruct a; exec; fields.
  - left. now destruct (PIN_COUNT <=? String.length buffer).
  - left.
    now destruct ((String.length buffer <=? 0) && (PIN_COUNT <=? String.length buffer)).
  - now left.
  - left. now destruct (cancel params).
  - now left.
  - now left.
  - left.
    now destruct (PinType_eqb (type params) PinAuth && JS.ge count PIN_TRY_MAX).
  - now left.
  - now left.
  - left.
    now destruct (PinType_eqb (type params) PinAuth && JS.ge count PIN_TRY_MAX).
  - now left.
  - left. now destruct t, (biometricType params), o, (result params).
  - destruct (Nat.eqb_spec (String.length buffer) 4) as [L|L];
      [|left; now destruct t].
    destruct t; fields.
    2: { right.
         now destruct (JS.not stored || String.eqb buffer stored), (result params). }
    all: destruct (String.eqb staged EmptyString); fields; [now left|].
    all: destruct (String.eqb staged buffer), (result params); fields;
         (now left) || (now right).
Qed.

(** ** The mode and the phase *)

(** X12. The mode of a mounted screen never changes: it stays the one of
    the route.  An Authenticate screen never leaves phase Input; phase Done
    is reached in Set mode only, and whenever the phase is Done no PIN is
    staged. *)
Theorem phase_invariants params (s : Sys) :
  reachable params s ->
  pinType (ui s) = type params /\
  (type params = PinAuth -> pinConfigurePhase (ui s) = PhInput) /\
  (pinConfigurePhase (ui s) = PhDone ->
   type params = PinSet /\ newPin (credentials (world s)) = EmptyString).
Proof.
  induction 1 as [w|s a Hs IH Hen].
  - cbn. repeat split; auto; discriminate.
  - destruct IH as (Hmode & Hauth & Hdone).
    open_sys s. subst t.
    assert (Hdone' : phase = PhDone -> type params = PinSet)
      by (intros D; now destruct (Hdone D)).
    assert (Keep : type params = type params /\
                   (type params = PinAuth -> phase = PhInput) /\
                   (phase = PhDone -> type params = PinSet /\ staged = EmptyString))
      by (split; [reflexivity|]; split; assumption).
    assert (Wiped : type params = type params /\
                    (type params = PinAuth -> phase = PhInput) /\
                    (phase = PhDone ->
                     type params = PinSet /\ EmptyString = EmptyString))
      by (split; [reflexivity|]; split; [assumption|];
          intros D; split; [now apply Hdone' | reflexivity]).
    destruct a; exec; fields.
    + now destruct (PIN_COUNT <=? String.length buffer).
    + now destruct ((String.length buffer <=? 0) && (PIN_COUNT <=? String.length buffer)).
    + exact Wiped.
    + now destruct (cancel params).
    + exact Wiped.
    + exact Keep.
    + now destruct (PinType_eqb (type params) PinAuth && JS.ge count PIN_TRY_MAX).
    + exact Keep.
    + exact Wiped.
    + now destruct (PinType_eqb (type params) PinAuth && JS.ge count PIN_TRY_MAX).
    + exact Keep.
    + clear Wiped.
      now destruct (type params), (biometricType params), o, (result params).
    + clear Wiped.
      destruct (String.length buffer =? 4); fields;
        [|now destruct (type params)].
      destruct (type params) eqn:T; fields.
      2: { now destruct (JS.not stored || String.eqb buffer stored), (result params). }
      all: destruct (String.eqb staged EmptyString); fields;
           [repeat split; discriminate|].
      all: destruct (String.eqb staged buffer), (result params);
           cbn [PinType_eqb negb]; fields;
           repeat split; auto; discriminate.
Qed.

Lemma phase_invariants_witness :
  pinConfigurePhase
    (ui (perform authParams HandlePinEffect
           (pressAll authParams ["1"; "2"; "3"; "4"]
              (mount authParams (stored1234 None))))) = PhInput.
Proof.
  apply (phase_invariants authParams).
  - unfold pressAll. cbn [fold_left].
    do 5 (apply reachable_step; [|reflexivity]). apply reachable_mount.
  - reflexivity.
Defined.

(** ** What the screen shows *)

(** X13. The row of dots always has four dots, and mirrors the buffer: as
    many filled dots as the buffer has characters (all four once it has four
    or more), filled from the left, the rest empty. *)
Theorem dots_mirror_buffer (r : State) :
  let filled := Nat.min (String.length (inputPin r)) PIN_COUNT in
  dots (render r) = (repeat true filled ++ repeat false (PIN_COUNT - filled))%list /\
  List.length (dots (render r)) = PIN_COUNT /\
  List.length (filter (fun d => d) (dots (render r))) = filled.
Proof.
  unfold render, dots, PIN_COUNT.
  destruct (String.length (inputPin r)) as [|[|[|[|n]]]]; cbv zeta;
    cbn [Nat.min]; rewrite ?Nat.min_0_r; now repeat split.
Qed.

(** X14. Whenever the lockout prompt is on screen, the rest of the screen
    agrees with it: the title is the one of Authenticate mode, the retry
    counter reads the number of failures (at least ten) out of ten, the
    warning text is shown, and the Forgot link is offered. *)
Theorem prompt_screen params (s : Sys) :
  reachable params s ->
  modalVisible (render (ui s)) = true ->
  exists n,
    PIN_TRY_MAX <= n /\
    pinTryCount (ui s) = JS.Num n /\
    title (render (ui s)) = "Enter your PIN code" /\
    subTitle (render (ui s)) = None /\
    tryCountText (render (ui s)) =
      ("Wrong PIN code (" ++ JS.ToString (JS.Num n) ++ "/10)")%string /\
    lockoutWarning (render (ui s)) = WARNING /\
    forgot (render (ui s)) = true.
Proof.
  intros Hs V.
  destruct (reachable_invariant params s Hs) as (_ & Hmode & _ & Hvis).
  unfold render in V. cbn [modalVisible] in V.
  destruct (Hvis V) as [A G]. apply ge_spec in G. destruct G as (n & Hn & Hle).
  exists n. split; [exact Hle|]. split; [exact Hn|].
  unfold render. cbn [title subTitle tryCountText lockoutWarning forgot].
  rewrite Hmode, A, Hn. cbn [PinType_eqb andb JS.gt JS.ge].
  unfold PIN_TRY_MAX in *.
  destruct (Nat.ltb_spec 0 n); [|lia].
  destruct (Nat.leb_spec (10 - 1) n); [|lia].
  now repeat split.
Qed.

Lemma prompt_screen_witness :
  let s := perform authParams TryCountEffect
             (perform authParams MountEffect
                (mount authParams (stored1234 (Some "11")))) in
  exists n,
    PIN_TRY_MAX <= n /\
    pinTryCount (ui s) = JS.Num n /\
    title (render (ui s)) = "Enter your PIN code" /\
    subTitle (render (ui s)) = None /\
    tryCountText (render (ui s)) =
      ("Wrong PIN code (" ++ JS.ToString (JS.Num n) ++ "/10)")%string /\
    lockoutWarning (render (ui s)) = WARNING /\
    forgot (render (ui s)) = true.
Proof.
  intros s. apply (prompt_screen authParams s).
  - do 2 (apply reachable_step; [|reflexivity]). apply reachable_mount.
  - reflexivity.
Defined.

(** ** The keypad *)

(** X15. A press on a button acts by the shape of its props alone: a value
    button appends its value, a delete button deletes whatever the boolean
    it carries, and a disabled button does nothing and keeps its colour,
    again whatever the boolean; the other two take the pressed colour.  The
    twelve buttons of the keypad are the ten digits in the order of
    [digits], one disabled button and one delete button, so a press on the
    keypad is a digit press, a delete press or nothing. *)
Theorem keypad_press params (black_90005 : string) (bg : option string) (s : Sys) :
  (forall value,
     pressIn black_90005 (ValueProps value) bg (ui s) s =
     (Some black_90005, run (fun r => handleInput r value) s)) /\
  (forall delete,
     pressIn black_90005 (DeleteProps delete) bg (ui s) s =
     (Some black_90005, run handleDelete s)) /\
  (forall disabled,
     pressIn black_90005 (DisabledProps disabled) bg (ui s) s = (bg, s)) /\
  (forall props,
     In props (concat keypadButtons) ->
     let s' := snd (pressIn black_90005 props bg (ui s) s) in
     (exists value, In value digits /\ s' = perform params (PressDigit value) s) \/
     s' = perform params PressDelete s \/
     s' = s) /\
  flat_map (fun props => match props with ValueProps value => [value] | _ => [] end)
           (concat keypadButtons) = digits.
Proof.
  assert (V : forall value,
            pressIn black_90005 (ValueProps value) bg (ui s) s =
            (Some black_90005, run (fun r => handleInput r value) s)).
  { intros value. unfold pressIn, onPressIn, run, bind, ret, handleInput.
    now destruct (PIN_COUNT <=? String.length (inputPin (ui s))). }
  assert (D : forall delete,
            pressIn black_90005 (DeleteProps delete) bg (ui s) s =
            (Some black_90005, run handleDelete s)).
  { intros delete. unfold pressIn, onPressIn, run, bind, ret, handleDelete.
    now destruct ((String.length (inputPin (ui s)) <=? 0)
                  && (PIN_COUNT <=? String.length (inputPin (ui s)))). }
  split; [exact V|]. split; [exact D|]. split; [reflexivity|].
  split; [|reflexivity].
  intros props Hin. cbn in Hin.
  repeat (destruct Hin as [<- | Hin];
          [ first [ rewrite V; left; eexists; split; [|reflexivity]; simpl; tauto
                  | rewrite D; right; left; reflexivity
                  | right; right; reflexivity ] | ]).
  contradiction.
Qed.

Lemma keypad_press_witness :
  inputPin (ui (snd (pressIn "#0000000d" (DeleteProps false) None
                       (mkState PinAuth "12" PhInput (JS.Num 0) false)
                       (screen PinAuth "12" 0 (stored1234 None))))) = "1" /\
  (let s' := snd (pressIn "#0000000d" (ValueProps "0") None
                    (mkState PinAuth "12" PhInput (JS.Num 0) false)
                    (screen PinAuth "12" 0 (stored1234 None))) in
   (exists value, In value digits /\
      s' = perform authParams (PressDigit value) (screen PinAuth "12" 0 (stored1234 None))) \/
   s' = perform authParams PressDelete (screen PinAuth "12" 0 (stored1234 None)) \/
   s' = screen PinAuth "12" 0 (stored1234 None)).
Proof.
  destruct (keypad_press authParams "#0000000d" None
              (screen PinAuth "12" 0 (stored1234 None))) as (_ & D & _ & K & _).
  split.
  - change (mkState PinAuth "12" PhInput (JS.Num 0) false)
      with (ui (screen PinAuth "12" 0 (stored1234 None))).
    rewrite (D false). reflexivity.
  - apply (K (ValueProps "0")). simpl. tauto.
Defined.

(** ** A retry count that is not a number *)

(** X16. If the retry count in memory is NaN (the storage held something
    that is no number), failures are no longer counted: a mismatch leaves
    the count NaN and persists NaN, which reloads as NaN; neither check
    raises the lockout prompt; and the screen shows neither the counter nor
    the warning.  Only a match, which sets the count to zero, ends this. *)
Theorem nan_count_is_stuck params (s : Sys) :
  pinTryCount (ui s) = JS.NaN ->
  (forall a, a = Focus \/ a = TryCountEffect ->
     visibleResetModal (ui (perform params a s)) = visibleResetModal (ui s)) /\
  tryCountText (render (ui s)) = " " /\
  lockoutWarning (render (ui s)) = String "010" EmptyString /\
  (pinType (ui s) = PinAuth ->
   String.length (inputPin (ui s)) = 4 ->
   pin (credentials (world s)) <> EmptyString ->
   (inputPin (ui s) <> pin (credentials (world s)) ->
    let s' := run (handlePin params) s in
    pinTryCount (ui s') = JS.NaN /\
    PIN_TRY_COUNT (world s') = Some "NaN" /\
    pinTryCount (ui (run (fun _ => initPinTryCount) s')) = JS.NaN) /\
   (inputPin (ui s) = pin (credentials (world s)) ->
    pinTryCount (ui (run (handlePin params) s)) = JS.Num 0)).
Proof.
  intros Hc. split; [|split; [|split]].
  - intros a Ha. rewrite (lockoutCheck_visible params a s Ha), Hc.
    cbn [JS.ge]. now rewrite andb_false_r, orb_false_r.
  - unfold render. cbn [tryCountText]. rewrite Hc. cbn [JS.gt].
    now rewrite andb_false_r.
  - unfold render. cbn [lockoutWarning]. rewrite Hc. cbn [JS.ge].
    now rewrite andb_false_r.
  - intros Hmode Hlen Hpin.
    rewrite (handlePin_auth_run params s Hmode Hlen). fields.
    apply String.eqb_neq in Hpin. unfold JS.not. rewrite Hpin, Hc. cbn [orb].
    split; intros E.
    + apply String.eqb_neq in E. rewrite E. now repeat split.
    + apply String.eqb_eq in E. now rewrite E.
Qed.

Lemma nan_count_is_stuck_witness :
  let s := pressAll authParams ["0"; "0"; "0"; "0"]
             (perform authParams MountEffect
                (mount authParams (stored1234 (Some "NaN")))) in
  pinTryCount (ui s) = JS.NaN /\
  PIN_TRY_COUNT (world (run (handlePin authParams) s)) = Some "NaN" /\
  visibleResetModal (ui (perform authParams TryCountEffect s)) = false.
Proof.
  intros s.
  destruct (nan_count_is_stuck authParams s eq_refl) as (Check & _ & _ & Eval).
  split; [reflexivity|]. split.
  - destruct Eval as (Miss & _); [reflexivity | reflexivity | discriminate |].
    apply Miss. discriminate.
  - apply (Check TryCountEffect). now right.
Defined.

(** ** When the scanner is called *)

Lemma app_one_neq {A} (l : list A) (x : A) (l' : list A) : (l ++ x :: l')%list <> l.
Proof.
  intros E. apply (f_equal (@List.length A)) in E.
  rewrite length_app in E. simpl in E. lia.
Qed.

(** X17. The biometric effect leaves the system exactly as it was if and
    only if the mode is not Authenticate or no biometric capability is
    reported: then the scanner is not called and nothing is reported,
    whatever the scan would have answered; otherwise the scanner is called. *)
Theorem biometric_only_in_auth params (o : ScanOutcome) (s : Sys) :
  run (biometricEffect params o) s = s <->
  (pinType (ui s) <> PinAuth \/ biometricType params = None).
Proof.
  split; [|apply biometricEffect_skipped].
  intros E. apply (f_equal (fun x => events (world x))) in E.
  open_sys s. exec.
  destruct t; try (left; discriminate).
  destruct (biometricType params) as [b|]; [|now right].
  exfalso. destruct o, (result params); fields;
    rewrite <- ?app_assoc in E; now apply app_one_neq in E.
Qed.

Lemma biometric_only_in_auth_witness :
  run (biometricEffect setParams Resolved)
    (screen PinSet "12" 0 (stored1234 None)) = screen PinSet "12" 0 (stored1234 None)
  /\ (pinType (ui (screen PinAuth "12" 0 (stored1234 None))) <> PinAuth \/
      biometricType (mkParams PinAuth true true None) = None).
Proof.
  split.
  - apply (biometric_only_in_auth setParams Resolved). left. discriminate.
  - apply (biometric_only_in_auth (mkParams PinAuth true true None) Resolved
             (screen PinAuth "12" 0 (stored1234 None))).
    reflexivity.
Defined.

(** ** The lockout, deferred or cleared *)



(** X19. The evaluation does not consult the lockout.  In Authenticate
    mode, whatever the retry count and whether or not the prompt is up, a
    four-character buffer that equals the stored PIN (or any such buffer
    when no PIN is stored) is reported as a success, sets the count to zero
    in memory and in storage and takes the prompt down; and the checks that
    follow, on focus or on the change of the count, leave it down. *)
Theorem match_clears_lockout params (s : Sys) :
  type params = PinAuth ->
  pinType (ui s) = PinAuth ->
  String.length (inputPin (ui s)) = 4 ->
  pin (credentials (world s)) = EmptyString \/
  inputPin (ui s) = pin (credentials (world s)) ->
  let s' := run (handlePin params) s in
  events (world s') =
    (events (world s) ++ (if result params then [Result true] else []))%list /\
  pinTryCount (ui s') = JS.Num 0 /\
  PIN_TRY_COUNT (world s') = Some "0" /\
  visibleResetModal (ui s') = false /\
  visibleResetModal (ui (perform params TryCountEffect s')) = false /\
  visibleResetModal (ui (perform params Focus s')) = false /\
  pinTryCount (ui (perform params Focus s')) = JS.Num 0.
Proof.
  intros Htype Hmode Hlen Hmatch s'. subst s'.
  rewrite (handlePin_auth_run params s Hmode Hlen). fields.
  assert (M : JS.not (pin (credentials (world s)))
              || String.eqb (inputPin (ui s)) (pin (credentials (world s))) = true).
  { destruct Hmatch as [E|E].
    - unfold JS.not. now rewrite E.
    - apply String.eqb_eq in E. rewrite E. apply orb_true_r. }
  rewrite M. exec. fields. rewrite Htype. now repeat split.
Qed.

Lemma match_clears_lockout_witness :
  let s := pressAll authParams ["1"; "2"; "3"; "4"]
             (perform authParams TryCountEffect
                (perform authParams MountEffect
                   (mount authParams (stored1234 (Some "12"))))) in
  visibleResetModal (ui s) = true /\
  visibleResetModal (ui (run (handlePin authParams) s)) = false /\
  pinTryCount (ui (run (handlePin authParams) s)) = JS.Num 0.
Proof.
  intros s.
  destruct (match_clears_lockout authParams s eq_refl eq_refl eq_refl)
    as (_ & C & _ & V & _).
  - right. reflexivity.
  - split; [reflexivity|]. split; [exact V | exact C].
Defined.

(** ** The mount effect in the middle of a configuration *)

(** X20. The mount effect empties the buffer and the staged PIN and reloads
    the retry count, but leaves the phase and the active PIN alone.  So when
    it runs in phase Confirm of a Set or Reset screen, the screen still
    asks to confirm, yet the next four digits are staged as a first entry,
    whatever they are: nothing is compared, saved, alerted or reported. *)
Theorem mountEffect_keeps_phase params (s : Sys) (values : list string) :
  pinType (ui s) <> PinAuth ->
  pinConfigurePhase (ui s) = PhConfirm ->
  entry values ->
  let remounted := perform params MountEffect s in
  let entered := perform params HandlePinEffect (pressAll params values remounted) in
  inputPin (ui remounted) = EmptyString /\
  newPin (credentials (world remounted)) = EmptyString /\
  pin (credentials (world remounted)) = pin (credentials (world s)) /\
  title (render (ui remounted)) = "Confirm your PIN code" /\
  newPin (credentials (world entered)) = joined values /\
  pin (credentials (world entered)) = pin (credentials (world s)) /\
  pinConfigurePhase (ui entered) = PhConfirm /\
  events (world entered) = events (world s).
Proof.
  intros Hmode Hphase Hentry remounted entered.
  assert (R : remounted =
              mkSys (mkState (pinType (ui s)) EmptyString PhConfirm
                       (JS.ToNumber (JS.or_else (PIN_TRY_COUNT (world s)) "0"))
                       (visibleResetModal (ui s)))
                    (mkWorld (mkCredentials (pin (credentials (world s))) EmptyString)
                       (PIN_TRY_COUNT (world s)) (events (world s)))).
  { subst remounted. open_sys s. subst phase. reflexivity. }
  destruct (pressAll_entry params values remounted Hentry) as [L E];
    [now rewrite R|].
  assert (S1 : entered =
               mkSys (mkState (pinType (ui s)) EmptyString PhConfirm
                        (JS.ToNumber (JS.or_else (PIN_TRY_COUNT (world s)) "0"))
                        (visibleResetModal (ui s)))
                     (mkWorld (mkCredentials (pin (credentials (world s)))
                                 (joined values))
                        (PIN_TRY_COUNT (world s)) (events (world s)))).
  { subst entered. unfold perform at 1. rewrite E, R. fields.
    rewrite handlePin_stage; [reflexivity | exact Hmode | exact L | reflexivity]. }
  rewrite S1, R. fields. repeat split.
  unfold render. cbn [title].
  destruct (pinType (ui s)); [reflexivity | congruence | reflexivity].
Qed.

Lemma mountEffect_keeps_phase_witness :
  let s := mkSys (mkState PinSet "25" PhConfirm (JS.Num 0) false)
                 (mkWorld (mkCredentials "1234" "2580") None []) in
  let entered := perform setParams HandlePinEffect
                   (pressAll setParams ["2"; "5"; "8"; "0"]
                      (perform setParams MountEffect s)) in
  pin (credentials (world entered)) = "1234" /\
  newPin (credentials (world entered)) = "2580" /\
  events (world entered) = [].
Proof.
  intros s entered.
  destruct (mountEffect_keeps_phase setParams s ["2"; "5"; "8"; "0"])
    as (_ & _ & _ & _ & N & P & _ & Ev).
  - discriminate.
  - reflexivity.
  - split; [|reflexivity].
    repeat (apply Forall_cons; [simpl; tauto|]). apply Forall_nil.
  - split; [exact P|]. split; [exact N | exact Ev].
Defined.
